(** * Bison colonisation simulation: a shallow embedding of
      [src/public/simulation.py] and the properties of its stepping engine.

    Numbers.  The program computes in IEEE floats (float32 grids, float64
    scalars).  The embedding is the exact-arithmetic reading of the code:
    every float is a rational ([Q]), [astype(np.float32)] is the identity,
    and sums are exact.  Python [int]s are [Z].

    Arrays.  A two-dimensional [np.ndarray] is a shape together with an
    indexing function; cells outside the shape are never read by the
    operations below except through explicit padding.

    Two library calls have no rational counterpart and are taken as an
    interface ([NumPy]): [np.sqrt] and the Poisson sampler of the seeded
    generator [self.rng]. *)

From Stdlib Require Import ZArith QArith Qround Qreals Reals Bool List String Lia Lra Lqa.
Import ListNotations.

Open Scope Z_scope.
Open Scope Q_scope.

(* ------------------------------------------------------------------ *)
(** ** Scalars *)

Definition Qlt_bool (x y : Q) : bool := negb (Qle_bool y x).

(** Python's [max(a, b)] and [min(a, b)]: the first argument wins ties. *)
Definition py_max (a b : Q) : Q := if Qlt_bool a b then b else a.
Definition py_min (a b : Q) : Q := if Qlt_bool b a then b else a.

(** [np.clip(x, lo, hi)] is [minimum(hi, maximum(x, lo))]. *)
Definition np_clip (x lo hi : Q) : Q := py_min (py_max x lo) hi.

(** [np.clip(x, 0, None)]. *)
Definition np_clip_lo (x lo : Q) : Q := py_max x lo.

(** Python's [int(x)] on a float: truncation toward zero. *)
Definition py_int (x : Q) : Z := Z.quot (Qnum x) (Zpos (Qden x)).

(** [min(hi, max(lo, n))] on Python ints. *)
Definition clampZ (n lo hi : Z) : Z := Z.min hi (Z.max lo n).

(* ------------------------------------------------------------------ *)
(** ** Arrays *)

Record ndarray := mk_array { nrows : Z; ncols : Z; item : Z -> Z -> Q }.

Definition np_zeros (h w : Z) : ndarray := mk_array h w (fun _ _ => 0).

Definition amap (f : Q -> Q) (a : ndarray) : ndarray :=
  mk_array (nrows a) (ncols a) (fun i j => f (item a i j)).

Definition amap2 (f : Q -> Q -> Q) (a b : ndarray) : ndarray :=
  mk_array (nrows a) (ncols a) (fun i j => f (item a i j) (item b i j)).

Definition amap3 (f : Q -> Q -> Q -> Q) (a b c : ndarray) : ndarray :=
  mk_array (nrows a) (ncols a)
           (fun i j => f (item a i j) (item b i j) (item c i j)).

(** Sum of [f 0 .. f (n-1)]. *)
Fixpoint sum_n (n : nat) (f : Z -> Q) : Q :=
  match n with
  | O => 0
  | S k => sum_n k f + f (Z.of_nat k)
  end.

Definition sum_to (n : Z) (f : Z -> Q) : Q := sum_n (Z.to_nat n) f.

(** [a.sum()]. *)
Definition np_sum (a : ndarray) : Q :=
  sum_to (nrows a) (fun i => sum_to (ncols a) (fun j => item a i j)).

Definition in_range (n i : Z) : bool := (0 <=? i)%Z && (i <? n)%Z.

Definition in_shape (a : ndarray) (i j : Z) : bool :=
  in_range (nrows a) i && in_range (ncols a) j.

(** Number of indices below [n] on which [p] holds. *)
Fixpoint count_n (n : nat) (p : Z -> Z) : Z :=
  match n with
  | O => 0%Z
  | S k => (count_n k p + p (Z.of_nat k))%Z
  end.

Definition sumZ_to (n : Z) (f : Z -> Z) : Z := count_n (Z.to_nat n) f.

(** Sum of an integer-valued array of shape [h] x [w]. *)
Definition sumZ2 (h w : Z) (f : Z -> Z -> Z) : Z :=
  sumZ_to h (fun i => sumZ_to w (fun j => f i j)).

(** Number of true cells of a boolean mask, as in [mask.sum()]. *)
Definition count2 (h w : Z) (m : Z -> Z -> bool) : Z :=
  sumZ2 h w (fun i j => if m i j then 1%Z else 0%Z).

(** Number of cells of [a] satisfying a test. *)
Definition np_count (p : Q -> bool) (a : ndarray) : Z :=
  count2 (nrows a) (ncols a) (fun i j => p (item a i j)).

(** Cell-by-cell equality of two arrays of one shape. *)
Definition array_eq (a b : ndarray) : Prop :=
  nrows a = nrows b /\ ncols a = ncols b /\
  forall i j, in_shape a i j = true -> item a i j = item b i j.

(** The outer ring: first/last row and first/last column. *)
Definition on_border (h w i j : Z) : bool :=
  (i =? 0)%Z || (i =? h - 1)%Z || (j =? 0)%Z || (j =? w - 1)%Z.

(* ------------------------------------------------------------------ *)
(** ** SimulationConfig *)

Record SimulationConfig := mk_config {
  digestibility_factor : Q;
  annual_growth_factor : Q;
  utilization_factor : Q;
  body_mass_kg : Q;
  daily_intake_rate : Q;
  max_growth_rate : Q;
  starvation_threshold : Q;
  min_viable_density : Q;
  pioneer_bonus : Q;
  annual_migration_km : Q;
  diffusion_rate : Q;
  food_preference_weight : Q
}.

Definition default_config : SimulationConfig :=
  mk_config 1.0 0.4 0.5 700.0 0.02 0.10 0.2 0.05 0.05 50.0 0.15 1.0.

Definition annual_intake_tonnes (cfg : SimulationConfig) : Q :=
  (body_mass_kg cfg * daily_intake_rate cfg * 365) / 1000.

(* ------------------------------------------------------------------ *)
(** ** Simulation state (after [initialize]) *)

Record Simulation := mk_sim {
  config : SimulationConfig;
  biomass : ndarray;
  max_biomass : ndarray;
  population : ndarray;
  cell_size_km : Q;
  year : Z;
  _migration_kernel : ndarray;
  _release_radius : Z
}.

(** The dictionary returned by [_get_state]. *)
Record Snapshot := mk_snapshot {
  snap_year : Z;
  snap_biomass : ndarray;
  snap_population : ndarray;
  snap_total_population : Q;
  snap_occupied_cells : Z
}.

Definition _get_state (s : Simulation) : Snapshot :=
  mk_snapshot (year s) (biomass s) (population s)
              (np_sum (population s))
              (np_count (fun x => Qlt_bool 0.1 x) (population s)).

(* ------------------------------------------------------------------ *)
(** ** Simulation._update_population *)

Definition epsilon : Q := 1 # 10000000000.

(** The value of [growth_factor] just before [np.clip(growth_factor, -0.3, 0.15)],
    for one cell. *)
Definition growth_factor_preclip (cfg : SimulationConfig) (pop cc fs : Q) : Q :=
  let capacity_ratio := pop / (cc + epsilon) in
  let is_viable := Qle_bool (min_viable_density cfg) pop in
  let well_fed := Qlt_bool (starvation_threshold cfg) fs in
  let below_capacity := Qlt_bool capacity_ratio 0.5 in
  let effective_rate :=
    if below_capacity then max_growth_rate cfg + pioneer_bonus cfg
    else max_growth_rate cfg in
  let growth_factor := effective_rate * fs * (1 - capacity_ratio) in
  let allee_decline :=
    -0.2 * (min_viable_density cfg - pop) / min_viable_density cfg in
  let growth_factor :=
    if is_viable && well_fed then growth_factor
    else if well_fed then allee_decline else growth_factor in
  let starvation_factor :=
    - max_growth_rate cfg * (1 - fs / starvation_threshold cfg) in
  let growth_factor := if well_fed then growth_factor else starvation_factor in
  let growth_factor := if Qlt_bool pop epsilon then 0 else growth_factor in
  growth_factor.

Definition new_pop_cell (cfg : SimulationConfig) (pop cc fs : Q) : Q :=
  let growth_factor := np_clip (growth_factor_preclip cfg pop cc fs) (-0.3) 0.15 in
  np_clip (pop * (1 + growth_factor)) 0 1000000.

Definition _update_population (cfg : SimulationConfig)
    (pop carrying_capacity food_satisfaction : ndarray) : ndarray :=
  amap3 (new_pop_cell cfg) pop carrying_capacity food_satisfaction.

(* ------------------------------------------------------------------ *)
(** ** Simulation._migrate *)

(** Reading outside the array yields 0 (the zero padding of a linear
    convolution). *)
Definition padded (a : ndarray) (i j : Z) : Q :=
  if in_shape a i j then item a i j else 0.

(** [signal.fftconvolve(p, k, mode='same')]: the linear convolution of [p]
    with [k], cropped to the shape of [p] around the centre of the full
    result (offset [(k.shape - 1) // 2] on each axis).  In exact arithmetic
    the spectral and the direct computation agree. *)
Definition fftconvolve_same (p k : ndarray) : ndarray :=
  let oy := ((nrows k - 1) / 2)%Z in
  let ox := ((ncols k - 1) / 2)%Z in
  mk_array (nrows p) (ncols p) (fun i j =>
    sum_to (nrows k) (fun u =>
      sum_to (ncols k) (fun v =>
        item k u v * padded p (i + oy - u)%Z (j + ox - v)%Z))).

(** [np.diff(a, axis=0, prepend=a[:1, :])]. *)
Definition diff_axis0 (a : ndarray) : ndarray :=
  mk_array (nrows a) (ncols a) (fun i j =>
    if (i =? 0)%Z then item a 0%Z j - item a 0%Z j
    else item a i j - item a (i - 1)%Z j).

(** [np.diff(a, axis=1, prepend=a[:, :1])]. *)
Definition diff_axis1 (a : ndarray) : ndarray :=
  mk_array (nrows a) (ncols a) (fun i j =>
    if (j =? 0)%Z then item a i 0%Z - item a i 0%Z
    else item a i j - item a i (j - 1)%Z).

(** [np.roll(a, s, axis=0)]: [out[i] = a[(i - s) mod h]]. *)
Definition roll_axis0 (a : ndarray) (s : Z) : ndarray :=
  mk_array (nrows a) (ncols a) (fun i j => item a ((i - s) mod nrows a)%Z j).

Definition roll_axis1 (a : ndarray) (s : Z) : ndarray :=
  mk_array (nrows a) (ncols a) (fun i j => item a i ((j - s) mod ncols a)%Z).

(** [result[self.max_biomass <= 0] = 0.0]. *)
Definition mask_water (result maxb : ndarray) : ndarray :=
  mk_array (nrows result) (ncols result) (fun i j =>
    if Qle_bool (item maxb i j) 0 then 0 else item result i j).

(** [result[0, :] = result[-1, :] = result[:, 0] = result[:, -1] = 0]. *)
Definition mask_edges (result : ndarray) : ndarray :=
  mk_array (nrows result) (ncols result) (fun i j =>
    if on_border (nrows result) (ncols result) i j then 0 else item result i j).

Definition mask_water_and_edges (result maxb : ndarray) : ndarray :=
  mask_edges (mask_water result maxb).

(** The blend of the diffused field with its four shifted copies, before
    masking. *)
Definition biased (cfg : SimulationConfig) (diffused carrying_capacity : ndarray)
  : ndarray :=
  let grad_y := diff_axis0 carrying_capacity in
  let grad_x := diff_axis1 carrying_capacity in
  let bias := food_preference_weight cfg * diffusion_rate cfg * 0.3 in
  let shift_up := roll_axis0 diffused (-1) in
  let shift_down := roll_axis0 diffused 1 in
  let shift_left := roll_axis1 diffused (-1) in
  let shift_right := roll_axis1 diffused 1 in
  mk_array (nrows diffused) (ncols diffused) (fun i j =>
    let up_w := np_clip (- item grad_y i j * bias) 0 0.2 in
    let down_w := np_clip (item grad_y i j * bias) 0 0.2 in
    let left_w := np_clip (- item grad_x i j * bias) 0 0.2 in
    let right_w := np_clip (item grad_x i j * bias) 0 0.2 in
    let total_shift := up_w + down_w + left_w + right_w in
    let stay_w := 1.0 - total_shift in
    stay_w * item diffused i j + up_w * item shift_up i j
    + down_w * item shift_down i j + left_w * item shift_left i j
    + right_w * item shift_right i j).

(** The masked field, before the rescaling that conserves the total. *)
Definition migrate_masked (s : Simulation) (carrying_capacity : ndarray) : ndarray :=
  let diffused := fftconvolve_same (population s) (_migration_kernel s) in
  mask_water_and_edges (biased (config s) diffused carrying_capacity)
                       (max_biomass s).

Definition _migrate (s : Simulation) (carrying_capacity : ndarray) : ndarray :=
  if Qlt_bool (np_sum (population s)) 0.1 then population s
  else
    let result := migrate_masked s carrying_capacity in
    let total_before := np_sum (population s) in
    let total_after := np_sum result in
    if Qlt_bool 0 total_after
    then amap (fun x => x * (total_before / total_after)) result
    else result.

(* ------------------------------------------------------------------ *)
(** ** Simulation.step *)

Definition food_satisfaction_cell (consumed food_demand : Q) : Q :=
  if Qlt_bool 0 food_demand then np_clip (consumed / food_demand) 0 1 else 1.

Definition with_population (s : Simulation) (p : ndarray) : Simulation :=
  mk_sim (config s) (biomass s) (max_biomass s) p (cell_size_km s) (year s)
         (_migration_kernel s) (_release_radius s).

Definition with_biomass (s : Simulation) (b : ndarray) : Simulation :=
  mk_sim (config s) b (max_biomass s) (population s) (cell_size_km s) (year s)
         (_migration_kernel s) (_release_radius s).

Definition with_year (s : Simulation) (y : Z) : Simulation :=
  mk_sim (config s) (biomass s) (max_biomass s) (population s) (cell_size_km s) y
         (_migration_kernel s) (_release_radius s).

(** The local arrays of [step], each from the state at entry. *)
Definition sustainable_harvest (s : Simulation) : ndarray :=
  let digestible :=
    amap (fun b => b * digestibility_factor (config s)) (biomass s) in
  amap (fun d => d * utilization_factor (config s)) digestible.

Definition food_demand (s : Simulation) : ndarray :=
  amap (fun p => p * annual_intake_tonnes (config s)) (population s).

Definition consumed (s : Simulation) : ndarray :=
  amap2 py_min (sustainable_harvest s) (food_demand s).

Definition food_satisfaction (s : Simulation) : ndarray :=
  amap2 food_satisfaction_cell (consumed s) (food_demand s).

Definition carrying_capacity (s : Simulation) : ndarray :=
  amap (fun x => x / annual_intake_tonnes (config s)) (sustainable_harvest s).

Definition updated_biomass (s : Simulation) : ndarray :=
  let regrowth :=
    amap2 (fun m b => (m - b) * annual_growth_factor (config s))
          (max_biomass s) (biomass s) in
  amap3 (fun b r c => np_clip_lo (b + r - c) 0) (biomass s) regrowth (consumed s).

Definition step (s : Simulation) : Simulation * Snapshot :=
  let cfg := config s in
  let food_satisfaction := food_satisfaction s in
  let carrying_capacity := carrying_capacity s in
  let s1 := with_biomass s (updated_biomass s) in
  let s2 := with_population s1 (_migrate s1 carrying_capacity) in
  let s3 :=
    with_population s2
      (_update_population cfg (population s2) carrying_capacity food_satisfaction) in
  let s4 := with_year s3 (year s3 + 1)%Z in
  (s4, _get_state s4).

(* ------------------------------------------------------------------ *)
(** ** The numeric interface

    [np_sqrt] stands for [np.sqrt]; [rng_poisson expected] stands for
    [self.rng.poisson(expected)] on the generator seeded with 42 that every
    new [Simulation] creates: an integer array of the shape of [expected]. *)

Class NumPy := {
  np_sqrt : Q -> Q;
  rng_poisson : ndarray -> Z -> Z -> Z
}.

(** What the properties below ask of [np_sqrt]: it is exact on perfect
    squares, and its integer part is the integer square root. *)
Definition sqrt_exact_on_squares `{NumPy} : Prop :=
  forall n : Z, (0 <= n)%Z -> np_sqrt (inject_Z (n * n)) == inject_Z n.

Definition sqrt_floor_exact `{NumPy} : Prop :=
  forall x : Q, 0 <= x -> Qfloor (np_sqrt x) = Z.sqrt (Qfloor x).

(** What they ask of the sampler: counts are not negative. *)
Definition poisson_nonneg `{NumPy} : Prop :=
  forall expected i j, (0 <= rng_poisson expected i j)%Z.

(** A sampler returning the integer part of each mean plus one, with the
    integer square root: a concrete instance to run the model on. *)
Definition floor_numpy : NumPy :=
  {| np_sqrt := fun x => inject_Z (Z.sqrt (Qfloor x));
     rng_poisson := fun expected i j => (Z.max 0 (Qfloor (item expected i j)) + 1)%Z |}.

(* ------------------------------------------------------------------ *)
(** ** Simulation._create_migration_kernel *)

Definition set_item (a : ndarray) (i0 j0 : Z) (v : Q) : ndarray :=
  mk_array (nrows a) (ncols a) (fun i j =>
    if (i =? i0)%Z && (j =? j0)%Z then v else item a i j).

Definition kernel_radius (cfg : SimulationConfig) (cell_size : Q) : Z :=
  let cells_per_year := annual_migration_km cfg / cell_size in
  Z.min 5 (Z.max 2 (py_int (cells_per_year / 4))).

(** [distances = np.sqrt(x*x + y*y)] on the open grid
    [-kernel_radius .. kernel_radius]: the entry at [(u, v)] has
    [y = u - kernel_radius] and [x = v - kernel_radius]. *)
Definition kernel_distance `{NumPy} (r u v : Z) : Q :=
  let y := (u - r)%Z in
  let x := (v - r)%Z in
  np_sqrt (inject_Z (x * x + y * y)).

(** The kernel after [kernel[mask] = 1.0 / (1.0 + distances[mask])**2.0]
    and [kernel[kernel_radius, kernel_radius] = 0]. *)
Definition kernel_raw `{NumPy} (r : Z) : ndarray :=
  let kernel_size := (2 * r + 1)%Z in
  let kernel :=
    mk_array kernel_size kernel_size (fun u v =>
      let d := kernel_distance r u v in
      if Qlt_bool 0 d && Qle_bool d (inject_Z r)
      then 1.0 / ((1.0 + d) * (1.0 + d))
      else 0) in
  set_item kernel r r 0.

Definition _create_migration_kernel `{NumPy} (cfg : SimulationConfig)
    (cell_size : Q) : ndarray :=
  let r := kernel_radius cfg cell_size in
  let kernel := kernel_raw r in
  let kernel :=
    if Qlt_bool 0 (np_sum kernel)
    then amap (fun k => k / np_sum kernel * diffusion_rate cfg) kernel
    else kernel in
  set_item kernel r r (1.0 - diffusion_rate cfg).

(** The kernel with its centre left out, and the kernel turned a quarter. *)
Definition off_center (k : ndarray) : ndarray :=
  set_item k ((nrows k - 1) / 2)%Z ((ncols k - 1) / 2)%Z 0.

Definition rot90 (k : ndarray) : ndarray :=
  mk_array (ncols k) (nrows k) (fun i j => item k j (ncols k - 1 - i)%Z).

(* ------------------------------------------------------------------ *)
(** ** Simulation._calculate_release_radius *)

(** Bounds of the Python slice [a[start:stop]] on an axis of length [len]:
    negative bounds count from the end, and both are clamped. *)
Definition slice_bound (len k : Z) : Z :=
  if (k <? 0)%Z then Z.max 0 (k + len) else Z.min k len.

Definition slice2 (a : ndarray) (r0 r1 c0 c1 : Z) : ndarray :=
  let r0' := slice_bound (nrows a) r0 in
  let r1' := slice_bound (nrows a) r1 in
  let c0' := slice_bound (ncols a) c0 in
  let c1' := slice_bound (ncols a) c1 in
  mk_array (Z.max 0 (r1' - r0')) (Z.max 0 (c1' - c0'))
           (fun i j => item a (r0' + i)%Z (c0' + j)%Z).

(** The radius from the local carrying capacity: lines 92-97. *)
Definition release_radius_of `{NumPy} (avg_cc : Q) (total_pop : Z) : Z :=
  let target_ratio := 0.8 in
  let cells_needed :=
    if Qlt_bool 0 avg_cc then inject_Z total_pop / (avg_cc * target_ratio)
    else 2000 in
  let min_cells := inject_Z (total_pop * 3) in
  let cells_needed := py_max cells_needed min_cells in
  Z.min 300 (Z.max 30 (py_int (np_sqrt (cells_needed / 3.14)))).

Definition local_avg_cc (cfg : SimulationConfig) (bio : ndarray) (row col : Z) : Q :=
  let h := nrows bio in
  let w := ncols bio in
  let sample_radius := 50%Z in
  let r_min := Z.max 0 (row - sample_radius) in
  let r_max := Z.min h (row + sample_radius) in
  let c_min := Z.max 0 (col - sample_radius) in
  let c_max := Z.min w (col + sample_radius) in
  let local_biomass := slice2 bio r_min r_max c_min c_max in
  let land := np_count (fun b => Qlt_bool 0 b) local_biomass in
  if (0 <? land)%Z then
    let avg_biomass :=
      np_sum (amap (fun b => if Qlt_bool 0 b then b else 0) local_biomass)
      / inject_Z land in
    (avg_biomass * utilization_factor cfg) / annual_intake_tonnes cfg
  else 0.1.

Definition _calculate_release_radius `{NumPy} (cfg : SimulationConfig)
    (bio : ndarray) (row col total_pop : Z) : Z :=
  release_radius_of (local_avg_cc cfg bio row col) total_pop.

(* ------------------------------------------------------------------ *)
(** ** Simulation._initialize_population *)

(** The window of candidate cells: [rows] and [cols] are the two
    [np.arange]s, the window arrays are indexed from 0, and entry [(a, b)]
    of a window array belongs to the grid cell [(r_lo + a, c_lo + b)]. *)
Record Window := mk_window { r_lo : Z; n_rows : Z; c_lo : Z; n_cols : Z }.

Definition seed_window (h w center_row center_col radius : Z) : Window :=
  let r0 := Z.max 0 (center_row - radius) in
  let r1 := Z.min h (center_row + radius + 1) in
  let c0 := Z.max 0 (center_col - radius) in
  let c1 := Z.min w (center_col + radius + 1) in
  mk_window r0 (Z.max 0 (r1 - r0)) c0 (Z.max 0 (c1 - c0)).

Definition seed_distance `{NumPy} (win : Window) (center_row center_col a b : Z) : Q :=
  let dr := (r_lo win + a - center_row)%Z in
  let dc := (c_lo win + b - center_col)%Z in
  np_sqrt (inject_Z (dr * dr + dc * dc)).

(** [valid_mask = within_radius & (land_values > 0)]. *)
Definition valid_mask `{NumPy} (bio : ndarray) (win : Window)
    (center_row center_col radius a b : Z) : bool :=
  Qle_bool (seed_distance win center_row center_col a b) (inject_Z radius)
  && Qlt_bool 0 (item bio (r_lo win + a)%Z (c_lo win + b)%Z).

(** [expected = weights * total_population] after the weights were
    normalised. *)
Definition seed_expected `{NumPy} (bio : ndarray) (win : Window)
    (center_row center_col radius total_population : Z) : ndarray :=
  let weights :=
    mk_array (n_rows win) (n_cols win) (fun a b =>
      if valid_mask bio win center_row center_col radius a b
      then (1.0 / (1.0 + seed_distance win center_row center_col a b))
           * np_sqrt (item bio (r_lo win + a)%Z (c_lo win + b)%Z)
      else 0) in
  let weights := amap (fun x => x / np_sum weights) weights in
  amap (fun x => x * inject_Z total_population) weights.

(** [actual] after [actual[~valid_mask] = 0]. *)
Definition seed_actual `{NumPy} (bio : ndarray) (win : Window)
    (center_row center_col radius total_population a b : Z) : Z :=
  if valid_mask bio win center_row center_col radius a b
  then rng_poisson
         (seed_expected bio win center_row center_col radius total_population) a b
  else 0%Z.

Definition _initialize_population `{NumPy} (bio : ndarray)
    (radius center_row center_col total_population : Z) : ndarray :=
  let h := nrows bio in
  let w := ncols bio in
  let win := seed_window h w center_row center_col radius in
  let valid := valid_mask bio win center_row center_col radius in
  if (count2 (n_rows win) (n_cols win) valid =? 0)%Z then np_zeros h w
  else
    let actual := seed_actual bio win center_row center_col radius total_population in
    let total := sumZ2 (n_rows win) (n_cols win) actual in
    let actual : Z -> Z -> Q :=
      if (0 <? total)%Z
      then fun a b => inject_Z (actual a b * total_population) / inject_Z total
      else fun a b => inject_Z (actual a b) in
    mk_array h w (fun i j =>
      if in_range (n_rows win) (i - r_lo win) && in_range (n_cols win) (j - c_lo win)
      then actual (i - r_lo win)%Z (j - c_lo win)%Z
      else 0).

(* ------------------------------------------------------------------ *)
(** ** Simulation.initialize *)

Definition initialize `{NumPy} (cfg : SimulationConfig) (bio : ndarray)
    (cell_size : Q) (start_row start_col total_population : Z)
  : Simulation * Snapshot :=
  let radius := _calculate_release_radius cfg bio start_row start_col total_population in
  let pop := _initialize_population bio radius start_row start_col total_population in
  let kernel := _create_migration_kernel cfg cell_size in
  let s := mk_sim cfg bio bio pop cell_size 0 kernel radius in
  (s, _get_state s).

(** The simulation after [n] further calls of [step]. *)
Fixpoint steps (n : nat) (s : Simulation) : Simulation :=
  match n with
  | O => s
  | S k => steps k (fst (step s))
  end.

(* ------------------------------------------------------------------ *)
(** ** The module-level entry points *)

Record Globals := mk_globals {
  _sim : option Simulation;
  _biomass_data : option ndarray;
  _cell_size_km : Q
}.

Definition initial_globals : Globals := mk_globals None None 1.0.

(** What an entry point hands back: the dictionary it serialises, or the
    exception that escapes it. *)
Inductive Reply :=
| ErrorReply (msg : string)
| InfoReply (width height : Z) (cell_size : Q)
| StateReply (state : Snapshot)
| Raises (exc : string).

Definition load_data (bio : ndarray) (cell_size : Q) (g : Globals)
  : Globals * Reply :=
  (mk_globals (_sim g) (Some bio) cell_size,
   InfoReply (ncols bio) (nrows bio) cell_size).

Definition start_simulation `{NumPy} (row col total_population : Z) (g : Globals)
  : Globals * Reply :=
  match _biomass_data g with
  | None => (g, ErrorReply "Data not loaded")
  | Some bio =>
      let '(s, state) :=
        initialize default_config bio (_cell_size_km g) row col total_population in
      (mk_globals (Some s) (_biomass_data g) (_cell_size_km g), StateReply state)
  end.

(** The loop [for _ in range(years): state = _sim.step()], from the value
    of [state] before it. *)
Fixpoint step_loop (n : nat) (s : Simulation) (state : option Snapshot)
  : Simulation * option Snapshot :=
  match n with
  | O => (s, state)
  | S k => let '(s', st) := step s in step_loop k s' (Some st)
  end.

Definition step_simulation (years : Z) (g : Globals) : Globals * Reply :=
  match _sim g with
  | None => (g, ErrorReply "Simulation not started")
  | Some s =>
      let '(s', state) := step_loop (Z.to_nat years) s None in
      (mk_globals (Some s') (_biomass_data g) (_cell_size_km g),
       match state with
       | None => Raises "TypeError"
       | Some st => StateReply st
       end)
  end.

(* ------------------------------------------------------------------ *)
(** ** Concrete inputs *)

(** A 3 x 3 landscape of uniform forage, one animal in the middle, and a
    5 x 5 kernel that keeps 85% in place. *)
Definition uniform_land : ndarray := mk_array 3 3 (fun _ _ => 10).

Definition center_population : ndarray :=
  mk_array 3 3 (fun i j => if (i =? 1)%Z && (j =? 1)%Z then 1 else 0).

Definition flat_kernel : ndarray :=
  mk_array 5 5 (fun u v => if (u =? 2)%Z && (v =? 2)%Z then 0.85 else 0.00625).

Definition small_state : Simulation :=
  mk_sim default_config uniform_land uniform_land center_population 1 0
         flat_kernel 30.

(** A scattered remnant whose total is below the migration threshold. *)
Definition sparse_state : Simulation :=
  mk_sim default_config uniform_land uniform_land
         (mk_array 3 3 (fun _ _ => 0.01)) 1 7 flat_kernel 30.

(** The default configuration with [annual_migration_km = 10.8]. *)
Definition short_range_config : SimulationConfig :=
  mk_config 1.0 0.4 0.5 700.0 0.02 0.10 0.2 0.05 0.05 10.8 0.15 1.0.

(* ------------------------------------------------------------------ *)
(** ** The formulas of the specification *)

(** Rounding to the nearest integer (ties upward). *)
Definition spec_round (x : Q) : Z := Qfloor (x + (1 # 2)).

(** [clamp(round(cellsPerYear/4), 2, 5)]. *)
Definition spec_kernel_radius (cfg : SimulationConfig) (cell_size : Q) : Z :=
  clampZ (spec_round (annual_migration_km cfg / cell_size / 4)) 2 5.

(** [clamp(floor(cellsPerYear/4), 2, 5)]. *)
Definition floor_kernel_radius (cfg : SimulationConfig) (cell_size : Q) : Z :=
  clampZ (Qfloor (annual_migration_km cfg / cell_size / 4)) 2 5.

(** [clamp(round(sqrt(area / pi)), 30, 300)] with
    [area = max(totalPopulation / (carryingCapacity * 0.8), totalPopulation * 3)],
    over the reals. *)
Definition spec_release_radius (carrying_capacity total_population : R) : Z :=
  let area :=
    Rmax (total_population / (carrying_capacity * (8 / 10))) (total_population * 3) in
  clampZ (Zfloor (sqrt (area / PI) + / 2)) 30 300.

(** [clamp(floor(sqrt(area / 3.14)), 30, 300)], over the reals. *)
Definition floor_release_radius (carrying_capacity total_population : R) : Z :=
  let area :=
    Rmax (total_population / (carrying_capacity * (8 / 10))) (total_population * 3) in
  clampZ (Zfloor (sqrt (area / (314 / 100)))) 30 300.

(** Validity of a configuration: the quantities the code divides by are
    positive and the rates and factors are not negative. *)
Definition valid_config (cfg : SimulationConfig) : Prop :=
  0 <= digestibility_factor cfg /\ 0 <= annual_growth_factor cfg /\
  0 <= utilization_factor cfg /\ 0 < annual_intake_tonnes cfg /\
  0 <= max_growth_rate cfg /\ 0 < starvation_threshold cfg /\
  0 < min_viable_density cfg /\ 0 <= pioneer_bonus cfg /\
  0 < annual_migration_km cfg /\
  0 <= diffusion_rate cfg <= 1 /\ 0 <= food_preference_weight cfg.

Definition nonneg_array (a : ndarray) : Prop :=
  forall i j, in_shape a i j = true -> 0 <= item a i j.

(** Population is 0 on the cells selected by [sel]. *)
Definition zero_on (sel : Z -> Z -> bool) (p : ndarray) : Prop :=
  forall i j, in_shape p i j = true -> sel i j = true -> item p i j == 0.

Definition is_water (maxb : ndarray) (i j : Z) : bool := Qle_bool (item maxb i j) 0.

Definition is_border (p : ndarray) (i j : Z) : bool :=
  on_border (nrows p) (ncols p) i j.

(** The two halves of the masking invariant, on a state. *)
Definition water_empty (s : Simulation) : Prop :=
  zero_on (is_water (max_biomass s)) (population s).

Definition border_empty (s : Simulation) : Prop :=
  zero_on (is_border (population s)) (population s).

(* ------------------------------------------------------------------ *)
(** ** Parts of [_migrate], named *)

(** An array that is 0 in every cell. *)
Definition all_zero (p : ndarray) : Prop :=
  forall i j, in_shape p i j = true -> item p i j == 0.

(** [bias] and the four directional weights of a cell, as [_migrate]
    computes them from the carrying capacity, and the weight that stays. *)
Definition migration_bias (cfg : SimulationConfig) : Q :=
  food_preference_weight cfg * diffusion_rate cfg * 0.3.

Definition up_weight (cfg : SimulationConfig) (cc : ndarray) (i j : Z) : Q :=
  np_clip (- item (diff_axis0 cc) i j * migration_bias cfg) 0 0.2.

Definition down_weight (cfg : SimulationConfig) (cc : ndarray) (i j : Z) : Q :=
  np_clip (item (diff_axis0 cc) i j * migration_bias cfg) 0 0.2.

Definition left_weight (cfg : SimulationConfig) (cc : ndarray) (i j : Z) : Q :=
  np_clip (- item (diff_axis1 cc) i j * migration_bias cfg) 0 0.2.

Definition right_weight (cfg : SimulationConfig) (cc : ndarray) (i j : Z) : Q :=
  np_clip (item (diff_axis1 cc) i j * migration_bias cfg) 0 0.2.

Definition stay_weight (cfg : SimulationConfig) (cc : ndarray) (i j : Z) : Q :=
  1.0 - (up_weight cfg cc i j + down_weight cfg cc i j
         + left_weight cfg cc i j + right_weight cfg cc i j).

(* ------------------------------------------------------------------ *)
(** ** scripts/convert_geotiff.py

    The array work of [convert_geotiff_to_npz], between reading band 1 of
    the raster and saving the archive: [band] is [src.read(1)], [nodata] is
    [src.nodata] and [pixel_width_m] is [src.transform[0]]. *)

(** [data[data == src.nodata] = 0.0], when [src.nodata is not None]. *)
Definition handle_nodata (nodata : option Q) (data : ndarray) : ndarray :=
  match nodata with
  | None => data
  | Some nd => amap (fun x => if Qeq_bool x nd then 0 else x) data
  end.

(** The pair saved as [biomass] and [cell_size_km]. *)
Definition convert_geotiff (nodata : option Q) (pixel_width_m : Q)
    (band : ndarray) : ndarray * Q :=
  let cell_size_m := Qabs.Qabs pixel_width_m in
  let cell_size_km := cell_size_m / 1000.0 in
  let data := handle_nodata nodata band in
  let data := amap (fun x => np_clip_lo x 0) data in
  (data, cell_size_km).

(** A state with no animals left. *)
Definition extinct_state : Simulation :=
  mk_sim default_config (mk_array 3 3 (fun _ _ => 4)) uniform_land
         (np_zeros 3 3) 1 5 flat_kernel 30.

(** A running session on the sparse state. *)
Definition sparse_session : Globals :=
  mk_globals (Some sparse_state) (Some uniform_land) 1.

(* ------------------------------------------------------------------ *)
(** ** Conditions on a state *)

(** The three grids of a state have one shape, as NumPy's element-wise
    operations in [step] require. *)
Definition well_shaped (s : Simulation) : Prop :=
  nrows (max_biomass s) = nrows (biomass s)
  /\ ncols (max_biomass s) = ncols (biomass s)
  /\ nrows (population s) = nrows (biomass s)
  /\ ncols (population s) = ncols (biomass s).

(** Every biomass cell lies between 0 and its ceiling. *)
Definition within_ceiling (s : Simulation) : Prop :=
  forall i j, in_shape (biomass s) i j = true ->
    0 <= item (biomass s) i j <= item (max_biomass s) i j.

(** [q] to the power [n]. *)
Fixpoint pow_n (q : Q) (n : nat) : Q :=
  match n with
  | O => 1
  | S k => pow_n q k * q
  end.

(** A strip of two rows: every cell is on the outer ring. *)
Definition strip_state : Simulation :=
  mk_sim default_config (mk_array 2 3 (fun _ _ => 10)) (mk_array 2 3 (fun _ _ => 10))
         (mk_array 2 3 (fun _ _ => 1)) 1 0 flat_kernel 30.

(* ================================================================== *)
(** * Properties *)

(* ------------------------------------------------------------------ *)
(** ** Comparisons, clipping *)

Lemma Qlt_bool_true (x y : Q) : Qlt_bool x y = true <-> x < y.
Proof.
  unfold Qlt_bool. rewrite negb_true_iff.
  split; intro E.
  - apply Qnot_le_lt. intro L. apply Qle_bool_iff in L. congruence.
  - destruct (Qle_bool y x) eqn:B; [| reflexivity].
    apply Qle_bool_iff in B. exfalso. exact (Qlt_not_le _ _ E B).
Qed.

Lemma Qlt_bool_false (x y : Q) : Qlt_bool x y = false <-> y <= x.
Proof.
  unfold Qlt_bool. rewrite negb_false_iff. apply Qle_bool_iff.
Qed.

Lemma Qle_bool_false (x y : Q) : Qle_bool x y = false <-> y < x.
Proof.
  split; intro E.
  - apply Qnot_le_lt. intro L. apply Qle_bool_iff in L. congruence.
  - destruct (Qle_bool x y) eqn:B; [| reflexivity].
    apply Qle_bool_iff in B. exfalso. exact (Qlt_not_le _ _ E B).
Qed.

Lemma py_max_lower (x lo : Q) : lo <= py_max x lo.
Proof.
  unfold py_max. destruct (Qlt_bool x lo) eqn:B.
  - apply Qle_refl.
  - apply Qlt_bool_false in B. exact B.
Qed.

Lemma py_max_cases (a b : Q) :
  (a < b /\ py_max a b = b) \/ (b <= a /\ py_max a b = a).
Proof.
  unfold py_max. destruct (Qlt_bool a b) eqn:B.
  - left. split; [apply Qlt_bool_true; exact B | reflexivity].
  - right. split; [apply Qlt_bool_false; exact B | reflexivity].
Qed.

Lemma py_min_cases (a b : Q) :
  (b < a /\ py_min a b = b) \/ (a <= b /\ py_min a b = a).
Proof.
  unfold py_min. destruct (Qlt_bool b a) eqn:B.
  - left. split; [apply Qlt_bool_true; exact B | reflexivity].
  - right. split; [apply Qlt_bool_false; exact B | reflexivity].
Qed.

Lemma np_clip_bounds (x lo hi : Q) : lo <= hi -> lo <= np_clip x lo hi <= hi.
Proof.
  intro L. unfold np_clip.
  pose proof (py_max_lower x lo) as M.
  destruct (py_min_cases (py_max x lo) hi) as [[C E] | [C E]]; rewrite E.
  - split; [exact L | apply Qle_refl].
  - split; [exact M | exact C].
Qed.

Lemma np_clip_zero (lo hi : Q) : lo <= 0 -> 0 <= hi -> np_clip 0 lo hi == 0.
Proof.
  intros L H. unfold np_clip.
  destruct (py_max_cases 0 lo) as [[C E] | [C E]]; rewrite E.
  - exfalso. exact (Qlt_not_le _ _ C L).
  - destruct (py_min_cases 0 hi) as [[C' E'] | [C' E']]; rewrite E'.
    + exfalso. exact (Qlt_not_le _ _ C' H).
    + reflexivity.
Qed.

(* ------------------------------------------------------------------ *)
(** ** Sums *)

Lemma sum_n_ext (n : nat) (f g : Z -> Q) :
  (forall i, (0 <= i < Z.of_nat n)%Z -> f i == g i) -> sum_n n f == sum_n n g.
Proof.
  induction n as [| k IH]; intro E; cbn [sum_n].
  - reflexivity.
  - rewrite IH, (E (Z.of_nat k)); [reflexivity | lia |].
    intros i Hi. apply E. lia.
Qed.

Lemma sum_n_scale (n : nat) (f : Z -> Q) (c : Q) :
  sum_n n (fun i => f i * c) == sum_n n f * c.
Proof.
  induction n as [| k IH]; cbn [sum_n].
  - ring.
  - rewrite IH. ring.
Qed.

Lemma sum_n_zero (n : nat) (f : Z -> Q) :
  (forall i, (0 <= i < Z.of_nat n)%Z -> f i == 0) -> sum_n n f == 0.
Proof.
  induction n as [| k IH]; intro E; cbn [sum_n].
  - reflexivity.
  - rewrite IH, (E (Z.of_nat k)); [ring | lia |].
    intros i Hi. apply E. lia.
Qed.

Lemma sum_n_nonneg (n : nat) (f : Z -> Q) :
  (forall i, (0 <= i < Z.of_nat n)%Z -> 0 <= f i) -> 0 <= sum_n n f.
Proof.
  induction n as [| k IH]; intro E; cbn [sum_n].
  - apply Qle_refl.
  - assert (0 <= sum_n k f) as A by (apply IH; intros i Hi; apply E; lia).
    assert (0 <= f (Z.of_nat k)) as B by (apply E; lia).
    lra.
Qed.

Lemma sum_n_ge_term (n : nat) (f : Z -> Q) (k : Z) :
  (forall i, (0 <= i < Z.of_nat n)%Z -> 0 <= f i) ->
  (0 <= k < Z.of_nat n)%Z -> f k <= sum_n n f.
Proof.
  induction n as [| m IH]; intros E Hk; cbn [sum_n].
  - lia.
  - assert (0 <= f (Z.of_nat m)) as B by (apply E; lia).
    assert (0 <= sum_n m f) as A
        by (apply sum_n_nonneg; intros i Hi; apply E; lia).
    destruct (Z.eq_dec k (Z.of_nat m)) as [-> | Ne].
    + lra.
    + assert (f k <= sum_n m f) as C
          by (apply IH; [intros i Hi; apply E; lia | lia]).
      lra.
Qed.

Lemma sum_to_ext (n : Z) (f g : Z -> Q) :
  (forall i, (0 <= i < n)%Z -> f i == g i) -> sum_to n f == sum_to n g.
Proof.
  intro E. unfold sum_to. apply sum_n_ext. intros i Hi. apply E. lia.
Qed.

Lemma sum_to_scale (n : Z) (f : Z -> Q) (c : Q) :
  sum_to n (fun i => f i * c) == sum_to n f * c.
Proof. apply sum_n_scale. Qed.

Lemma sum_to_zero (n : Z) (f : Z -> Q) :
  (forall i, (0 <= i < n)%Z -> f i == 0) -> sum_to n f == 0.
Proof.
  intro E. unfold sum_to. apply sum_n_zero. intros i Hi. apply E. lia.
Qed.

Lemma sum_to_nonneg (n : Z) (f : Z -> Q) :
  (forall i, (0 <= i < n)%Z -> 0 <= f i) -> 0 <= sum_to n f.
Proof.
  intro E. unfold sum_to. apply sum_n_nonneg. intros i Hi. apply E. lia.
Qed.

Lemma sum_to_ge_term (n : Z) (f : Z -> Q) (k : Z) :
  (forall i, (0 <= i < n)%Z -> 0 <= f i) -> (0 <= k < n)%Z -> f k <= sum_to n f.
Proof.
  intros E Hk. unfold sum_to. apply sum_n_ge_term; [| lia].
  intros i Hi. apply E. lia.
Qed.

Lemma in_range_true (n i : Z) : in_range n i = true <-> (0 <= i < n)%Z.
Proof. unfold in_range. rewrite andb_true_iff, Z.leb_le, Z.ltb_lt. tauto. Qed.

Lemma in_shape_true (a : ndarray) (i j : Z) :
  in_shape a i j = true <-> (0 <= i < nrows a)%Z /\ (0 <= j < ncols a)%Z.
Proof. unfold in_shape. rewrite andb_true_iff, !in_range_true. tauto. Qed.

Lemma np_sum_ext (a b : ndarray) :
  nrows a = nrows b -> ncols a = ncols b ->
  (forall i j, in_shape a i j = true -> item a i j == item b i j) ->
  np_sum a == np_sum b.
Proof.
  intros Hr Hc E. unfold np_sum. rewrite <- Hr, <- Hc.
  apply sum_to_ext. intros i Hi. apply sum_to_ext. intros j Hj.
  apply E. apply in_shape_true. split; assumption.
Qed.

Lemma np_sum_scale (a : ndarray) (c : Q) :
  np_sum (amap (fun x => x * c) a) == np_sum a * c.
Proof.
  unfold np_sum, amap; cbn [nrows ncols item].
  rewrite <- sum_to_scale. apply sum_to_ext. intros i _.
  apply sum_to_scale.
Qed.

Lemma np_sum_zero (a : ndarray) :
  (forall i j, in_shape a i j = true -> item a i j == 0) -> np_sum a == 0.
Proof.
  intro E. unfold np_sum. apply sum_to_zero. intros i Hi.
  apply sum_to_zero. intros j Hj. apply E. apply in_shape_true. split; assumption.
Qed.

Lemma np_sum_nonneg (a : ndarray) :
  (forall i j, in_shape a i j = true -> 0 <= item a i j) -> 0 <= np_sum a.
Proof.
  intro E. unfold np_sum. apply sum_to_nonneg. intros i Hi.
  apply sum_to_nonneg. intros j Hj. apply E. apply in_shape_true. split; assumption.
Qed.

Lemma np_sum_ge_item (a : ndarray) (i j : Z) :
  (forall u v, in_shape a u v = true -> 0 <= item a u v) ->
  in_shape a i j = true -> item a i j <= np_sum a.
Proof.
  intros E Hij. apply in_shape_true in Hij. destruct Hij as [Hi Hj].
  unfold np_sum.
  apply Qle_trans with (sum_to (ncols a) (fun v => item a i v)).
  - apply (sum_to_ge_term (ncols a) (fun v => item a i v) j); [| exact Hj].
    intros v Hv. apply E. apply in_shape_true. split; assumption.
  - apply (sum_to_ge_term (nrows a)
             (fun u => sum_to (ncols a) (fun v => item a u v)) i); [| exact Hi].
    intros u Hu. apply sum_to_nonneg. intros v Hv. apply E.
    apply in_shape_true. split; assumption.
Qed.

(* ------------------------------------------------------------------ *)
(** ** The growth sub-step *)

(** C3.  In a cell that is not well fed ([fs <= starvation_threshold]) and
    not empty ([pop >= epsilon]), the growth factor before clipping is the
    starvation decline [-max_growth_rate * (1 - fs / starvation_threshold)],
    whatever the population is relative to [min_viable_density]. *)
Theorem starvation_takes_precedence (cfg : SimulationConfig) (pop cc fs : Q) :
  fs <= starvation_threshold cfg ->
  epsilon <= pop ->
  growth_factor_preclip cfg pop cc fs
  = - max_growth_rate cfg * (1 - fs / starvation_threshold cfg).
Proof.
  intros Hfs Hpop. unfold growth_factor_preclip. cbv zeta.
  apply Qlt_bool_false in Hfs. apply Qlt_bool_false in Hpop.
  rewrite Hfs, Hpop. reflexivity.
Qed.

Lemma starvation_takes_precedence_witness :
  growth_factor_preclip default_config 1 5 0.1
  = - max_growth_rate default_config
    * (1 - 0.1 / starvation_threshold default_config)
  /\ growth_factor_preclip default_config 0.01 5 0.1
     = - max_growth_rate default_config
       * (1 - 0.1 / starvation_threshold default_config).
Proof.
  split; apply starvation_takes_precedence;
    apply Qle_bool_iff; vm_compute; reflexivity.
Defined.

(* ------------------------------------------------------------------ *)
(** ** The migration sub-step *)

(** C7.  Below a total of 0.1 the migration sub-step hands back its input:
    the same shape and the same value in every cell. *)
Theorem migrate_is_identity_below_threshold (s : Simulation) (cc : ndarray) :
  np_sum (population s) < 0.1 ->
  _migrate s cc = population s /\ array_eq (_migrate s cc) (population s).
Proof.
  intro Hsum. apply Qlt_bool_true in Hsum.
  assert (_migrate s cc = population s) as E
      by (unfold _migrate; rewrite Hsum; reflexivity).
  split; [exact E |]. rewrite E. repeat split; reflexivity.
Qed.

Lemma migrate_is_identity_below_threshold_witness :
  _migrate sparse_state uniform_land = population sparse_state
  /\ array_eq (_migrate sparse_state uniform_land) (population sparse_state).
Proof.
  apply migrate_is_identity_below_threshold.
  apply Qlt_bool_true. vm_compute. reflexivity.
Defined.

(** C1.  When the total is at least 0.1 and some mass survives the masking
    of water and border cells, the migration sub-step conserves the total:
    the masked field is multiplied by [total_before / total_after]. *)
Theorem migrate_conserves_total (s : Simulation) (cc : ndarray) :
  0.1 <= np_sum (population s) ->
  0 < np_sum (migrate_masked s cc) ->
  np_sum (_migrate s cc) == np_sum (population s).
Proof.
  intros Hsum Hafter. unfold _migrate. cbv zeta.
  apply Qlt_bool_false in Hsum. rewrite Hsum.
  pose proof Hafter as Hpos. apply Qlt_bool_true in Hafter. rewrite Hafter.
  rewrite np_sum_scale. field. lra.
Qed.

Lemma migrate_conserves_total_witness :
  np_sum (_migrate small_state (carrying_capacity small_state))
  == np_sum (population small_state).
Proof.
  apply migrate_conserves_total.
  - apply Qle_bool_iff. vm_compute. reflexivity.
  - apply Qlt_bool_true. vm_compute. reflexivity.
Defined.

(* ------------------------------------------------------------------ *)
(** ** One full step *)

Lemma step_biomass (s : Simulation) :
  biomass (fst (step s)) = updated_biomass s.
Proof. reflexivity. Qed.

Lemma step_population (s : Simulation) :
  population (fst (step s))
  = _update_population (config s)
      (_migrate (with_biomass s (updated_biomass s)) (carrying_capacity s))
      (carrying_capacity s) (food_satisfaction s).
Proof. reflexivity. Qed.

Lemma step_max_biomass (s : Simulation) :
  max_biomass (fst (step s)) = max_biomass s.
Proof. reflexivity. Qed.

Lemma step_year (s : Simulation) : year (fst (step s)) = (year s + 1)%Z.
Proof. reflexivity. Qed.

Lemma step_snapshot (s : Simulation) : snd (step s) = _get_state (fst (step s)).
Proof. reflexivity. Qed.

Lemma new_pop_cell_bounds (cfg : SimulationConfig) (pop cc fs : Q) :
  0 <= new_pop_cell cfg pop cc fs <= 1000000.
Proof. unfold new_pop_cell. apply np_clip_bounds. lra. Qed.

(** C8.  After one full step no biomass cell and no population cell is
    negative: the biomass is clipped below at 0 after regrowth minus
    consumption, and the growth sub-step, which runs last, clips the
    population to [0, 1e6]. *)
Theorem step_keeps_fields_nonnegative (s : Simulation) :
  valid_config (config s) ->
  nonneg_array (biomass s) ->
  nonneg_array (population s) ->
  nonneg_array (biomass (fst (step s)))
  /\ nonneg_array (population (fst (step s))).
Proof.
  intros _ _ _. split; intros i j _.
  - rewrite step_biomass. unfold updated_biomass, amap3. cbn [item].
    apply py_max_lower.
  - rewrite step_population. unfold _update_population, amap3. cbn [item].
    apply new_pop_cell_bounds.
Qed.

Lemma default_config_valid : valid_config default_config.
Proof.
  unfold valid_config.
  repeat split; apply Qle_bool_iff || apply Qlt_bool_true; vm_compute; reflexivity.
Qed.

Lemma step_keeps_fields_nonnegative_witness :
  nonneg_array (biomass (fst (step small_state)))
  /\ nonneg_array (population (fst (step small_state))).
Proof.
  apply step_keeps_fields_nonnegative.
  - exact default_config_valid.
  - intros i j _. cbn. lra.
  - intros i j _. cbn.
    destruct ((i =? 1)%Z && (j =? 1)%Z); lra.
Defined.

(* ------------------------------------------------------------------ *)
(** ** The entry points *)

Lemma step_loop_steps (n : nat) (s : Simulation) (st : option Snapshot) :
  step_loop n s st
  = (steps n s,
     match n with
     | O => st
     | S _ => Some (_get_state (steps n s))
     end).
Proof.
  revert s st. induction n as [| k IH]; intros s st.
  - reflexivity.
  - cbn [step_loop steps].
    destruct (step s) as [s' snap] eqn:E.
    rewrite IH.
    assert (s' = fst (step s)) as -> by (rewrite E; reflexivity).
    assert (snap = _get_state (fst (step s))) as ->
        by (rewrite <- step_snapshot, E; reflexivity).
    destruct k; reflexivity.
Qed.

Lemma steps_year (n : nat) (s : Simulation) :
  year (steps n s) = (year s + Z.of_nat n)%Z.
Proof.
  revert s. induction n as [| k IH]; intro s.
  - cbn [steps]. lia.
  - cbn [steps]. rewrite IH, step_year. lia.
Qed.

(** C9.  Without a started simulation -- at module load, or after
    [load_data] alone -- [step_simulation] answers with the error
    "Simulation not started", hands back no snapshot and leaves the module
    state as it was. *)
Theorem step_simulation_before_start (years : Z) (g : Globals)
    (bio : ndarray) (cell_size : Q) :
  _sim g = None ->
  step_simulation years g = (g, ErrorReply "Simulation not started")
  /\ step_simulation years (fst (load_data bio cell_size g))
     = (fst (load_data bio cell_size g), ErrorReply "Simulation not started").
Proof.
  intro Hnone. split.
  - unfold step_simulation. rewrite Hnone. reflexivity.
  - unfold step_simulation, load_data. cbn [fst _sim]. rewrite Hnone. reflexivity.
Qed.

Lemma step_simulation_before_start_witness :
  step_simulation 3 initial_globals
  = (initial_globals, ErrorReply "Simulation not started")
  /\ step_simulation 3 (fst (load_data uniform_land 1 initial_globals))
     = (fst (load_data uniform_land 1 initial_globals),
        ErrorReply "Simulation not started").
Proof.
  apply step_simulation_before_start. reflexivity.
Defined.

(** C10.  With a started simulation, [step_simulation years] returns a
    snapshot exactly when [years >= 1]: it is then the state after [years]
    steps, with the year counter advanced by [years].  For [years <= 0] the
    loop body never runs, [state] is still [None], the subscript raises, and
    nothing was stepped. *)
Theorem step_simulation_needs_a_year (years : Z) (g : Globals) (s : Simulation) :
  _sim g = Some s ->
  ((1 <= years)%Z ->
   let s' := steps (Z.to_nat years) s in
   step_simulation years g
   = (mk_globals (Some s') (_biomass_data g) (_cell_size_km g),
      StateReply (_get_state s'))
   /\ snap_year (_get_state s') = (year s + years)%Z)
  /\ ((years <= 0)%Z ->
      step_simulation years g = (g, Raises "TypeError"))
  /\ ((exists st, snd (step_simulation years g) = StateReply st)
      <-> (1 <= years)%Z).
Proof.
  intro Hs.
  assert (forall y, (1 <= y)%Z ->
            step_simulation y g
            = (mk_globals (Some (steps (Z.to_nat y) s))
                          (_biomass_data g) (_cell_size_km g),
               StateReply (_get_state (steps (Z.to_nat y) s)))) as Hpos.
  { intros y Hy. unfold step_simulation. rewrite Hs, step_loop_steps.
    destruct (Z.to_nat y) eqn:E; [lia | reflexivity]. }
  assert (forall y, (y <= 0)%Z -> step_simulation y g = (g, Raises "TypeError"))
    as Hneg.
  { intros y Hy. unfold step_simulation. rewrite Hs.
    replace (Z.to_nat y) with O by lia. cbn [step_loop].
    destruct g as [sim bd cs]. cbn in Hs |- *. rewrite Hs. reflexivity. }
  split; [| split].
  - intros Hy s'. split.
    + apply Hpos. exact Hy.
    + unfold _get_state. cbn [snap_year]. subst s'. rewrite steps_year. lia.
  - apply Hneg.
  - split.
    + intros [st Hst]. destruct (Z_lt_le_dec years 1) as [Hlt | Hge]; [| exact Hge].
      rewrite Hneg in Hst by lia. discriminate Hst.
    + intro Hy. rewrite (Hpos years Hy). eexists. reflexivity.
Qed.

Lemma step_simulation_needs_a_year_witness :
  step_simulation 0 (mk_globals (Some sparse_state) (Some uniform_land) 1)
  = (mk_globals (Some sparse_state) (Some uniform_land) 1, Raises "TypeError")
  /\ snap_year (_get_state (steps (Z.to_nat 2) sparse_state)) = 9%Z.
Proof.
  pose proof (step_simulation_needs_a_year 0
                (mk_globals (Some sparse_state) (Some uniform_land) 1)
                sparse_state eq_refl) as [_ [H0 _]].
  pose proof (step_simulation_needs_a_year 2
                (mk_globals (Some sparse_state) (Some uniform_land) 1)
                sparse_state eq_refl) as [H2 _].
  split.
  - apply H0. lia.
  - apply H2. lia.
Defined.

(* ------------------------------------------------------------------ *)
(** ** Truncation, floors and square roots *)

Lemma Qnum_nonneg (x : Q) : 0 <= x -> (0 <= Qnum x)%Z.
Proof. unfold Qle. cbn. lia. Qed.

Lemma py_int_floor (x : Q) : 0 <= x -> py_int x = Qfloor x.
Proof.
  intro Hx. apply Qnum_nonneg in Hx.
  destruct x as [n d]. unfold py_int, Qfloor. cbn [Qnum Qden] in *.
  apply Z.quot_div_nonneg; lia.
Qed.

Lemma Qfloor_nonneg (x : Q) : 0 <= x -> (0 <= Qfloor x)%Z.
Proof.
  intro Hx. change 0%Z with (Qfloor (inject_Z 0)).
  apply Qfloor_resp_le. exact Hx.
Qed.

Lemma Qfloor_nonneg_inv (x : Q) : (0 <= Qfloor x)%Z -> 0 <= x.
Proof.
  intro H. apply Qle_trans with (inject_Z (Qfloor x)).
  - change 0 with (inject_Z 0). rewrite <- Zle_Qle. exact H.
  - apply Qfloor_le.
Qed.

Lemma Q2R_inject_Z (z : Z) : Q2R (inject_Z z) = IZR z.
Proof. unfold Q2R, inject_Z. cbn [Qnum Qden]. rewrite Rinv_1. apply Rmult_1_r. Qed.

(** The integer part of the real square root of a rational is the integer
    square root of its integer part. *)
Lemma Zfloor_sqrt (x : Q) :
  0 <= x -> Zfloor (sqrt (Q2R x)) = Z.sqrt (Qfloor x).
Proof.
  intro Hx.
  pose proof (Qfloor_nonneg x Hx) as Hn.
  pose proof (Z.sqrt_spec (Qfloor x) Hn) as [Hlo Hhi].
  pose proof (Z.sqrt_nonneg (Qfloor x)) as Hm.
  set (m := Z.sqrt (Qfloor x)) in *.
  assert (IZR (m * m) <= Q2R x)%R as Rlo.
  { apply Rle_trans with (IZR (Qfloor x)); [apply IZR_le; exact Hlo |].
    rewrite <- Q2R_inject_Z. apply Qle_Rle. apply Qfloor_le. }
  assert (Q2R x < IZR ((m + 1) * (m + 1)))%R as Rhi.
  { apply Rlt_le_trans with (IZR (Qfloor x + 1)).
    - rewrite <- Q2R_inject_Z. apply Qlt_Rlt. apply Qlt_floor.
    - apply IZR_le. unfold Z.succ in Hhi. lia. }
  rewrite mult_IZR in Rlo. rewrite mult_IZR, plus_IZR in Rhi.
  assert (0 <= IZR m)%R as Rm by (apply IZR_le; exact Hm).
  apply Zfloor_eq. split.
  - rewrite <- (sqrt_square (IZR m) Rm). apply sqrt_le_1_alt. exact Rlo.
  - assert (0 <= IZR m + 1)%R as Rm1 by Lra.lra.
    rewrite <- (sqrt_square (IZR m + 1) Rm1).
    apply sqrt_lt_1_alt. split; [| exact Rhi].
    apply Rle_trans with (IZR m * IZR m)%R; [| exact Rlo].
    apply Rmult_le_pos; exact Rm.
Qed.

Lemma Q2R_py_max (a b : Q) : Q2R (py_max a b) = Rmax (Q2R a) (Q2R b).
Proof.
  destruct (py_max_cases a b) as [[C E] | [C E]]; rewrite E.
  - apply Qlt_Rlt in C. rewrite Rmax_right; [reflexivity | Lra.lra].
  - apply Qle_Rle in C. rewrite Rmax_left; [reflexivity | exact C].
Qed.

Lemma Rle_div_pos (a b p : R) : (0 < p -> a * p <= b -> a <= b / p)%R.
Proof.
  intros Hp H. apply Rmult_le_reg_r with p; [exact Hp |].
  replace (b / p * p)%R with b by (field; Lra.lra). exact H.
Qed.

Lemma Rlt_div_pos (a b p : R) : (0 < p -> b < a * p -> b / p < a)%R.
Proof.
  intros Hp H. apply Rmult_lt_reg_r with p; [exact Hp |].
  replace (b / p * p)%R with b by (field; Lra.lra). exact H.
Qed.

Lemma PI_bounds : (3135 / 1000 < PI <= 68 / 21)%R.
Proof.
  pose proof (PI_2_3_7_ineq 0) as H.
  unfold sum_f_R0, tg_alt, PI_2_3_7_tg, Ratan_seq in H. simpl in H.
  Lra.lra.
Qed.

(* ------------------------------------------------------------------ *)
(** ** The kernel radius *)




(* ------------------------------------------------------------------ *)
(** ** The release radius *)

Lemma floor_numpy_sqrt_floor_exact : @sqrt_floor_exact floor_numpy.
Proof.
  intros x _. cbn [np_sqrt floor_numpy]. apply Qfloor_Z.
Qed.

Lemma floor_numpy_sqrt_exact_on_squares : @sqrt_exact_on_squares floor_numpy.
Proof.
  intros n Hn. cbn [np_sqrt floor_numpy]. rewrite Qfloor_Z.
  rewrite Z.sqrt_square by exact Hn. reflexivity.
Qed.




(* ------------------------------------------------------------------ *)
(** ** The migration kernel *)

Lemma sum_n_update (n : nat) (f : Z -> Q) (k : Z) (x : Q) :
  (0 <= k < Z.of_nat n)%Z ->
  sum_n n (fun i => if (i =? k)%Z then x else f i)
  == sum_n n (fun i => if (i =? k)%Z then 0 else f i) + x.
Proof.
  induction n as [| m IH]; intro Hk; cbn [sum_n].
  - lia.
  - destruct (Z.eqb_spec (Z.of_nat m) k) as [E | Ne].
    + assert (forall y, sum_n m (fun i => if (i =? k)%Z then y else f i)
                        == sum_n m f) as Hsame.
      { intro y. apply sum_n_ext. intros i Hi.
        destruct (Z.eqb_spec i k); [lia | reflexivity]. }
      rewrite (Hsame x), (Hsame 0). ring.
    + rewrite IH by lia. ring.
Qed.

Lemma sum_to_update (n : Z) (f : Z -> Q) (k : Z) (x : Q) :
  (0 <= k < n)%Z ->
  sum_to n (fun i => if (i =? k)%Z then x else f i)
  == sum_to n (fun i => if (i =? k)%Z then 0 else f i) + x.
Proof. intro Hk. unfold sum_to. apply sum_n_update. lia. Qed.

(** Overwriting one cell changes the sum by the value written. *)
Lemma np_sum_set_item (a : ndarray) (i0 j0 : Z) (v : Q) :
  in_shape a i0 j0 = true ->
  np_sum (set_item a i0 j0 v) == np_sum (set_item a i0 j0 0) + v.
Proof.
  intro Hin. apply in_shape_true in Hin. destruct Hin as [Hi Hj].
  unfold np_sum, set_item. cbn [nrows ncols item].
  set (row := fun (y : Q) (i : Z) =>
                sum_to (ncols a)
                  (fun j => if (i =? i0)%Z && (j =? j0)%Z then y else item a i j)).
  assert (forall y i, row y i
            == if (i =? i0)%Z then row 0 i0 + y else row 0 i) as Hrow.
  { intros y i. unfold row. destruct (Z.eqb_spec i i0) as [-> | Ne].
    - rewrite Z.eqb_refl. cbn [andb]. apply sum_to_update. exact Hj.
    - destruct (Z.eqb_spec i i0); [contradiction |]. reflexivity. }
  change (sum_to (nrows a) (row v) == sum_to (nrows a) (row 0) + v).
  rewrite (sum_to_ext _ _ _ (fun i _ => Hrow v i)).
  rewrite (sum_to_ext _ (row 0) _ (fun i _ => Hrow 0 i)).
  rewrite (sum_to_update _ (row 0) i0 (row 0 i0 + v) Hi).
  rewrite (sum_to_update _ (row 0) i0 (row 0 i0 + 0) Hi).
  ring.
Qed.

Lemma kernel_radius_range (cfg : SimulationConfig) (cell_size : Q) :
  (2 <= kernel_radius cfg cell_size <= 5)%Z.
Proof. unfold kernel_radius. cbv zeta. lia. Qed.

Lemma inverse_square_pos (d : Q) : 0 < d -> 0 < 1.0 / ((1.0 + d) * (1.0 + d)).
Proof.
  intro Hd. apply Qlt_shift_div_l.
  - apply Qmult_lt_0_compat; lra.
  - lra.
Qed.

Lemma kernel_raw_nonneg `{NumPy} (r u v : Z) : 0 <= item (kernel_raw r) u v.
Proof.
  unfold kernel_raw, set_item. cbn [item].
  destruct ((u =? r)%Z && (v =? r)%Z); [apply Qle_refl |].
  destruct (Qlt_bool 0 (kernel_distance r u v)) eqn:Hpos; cbn [andb].
  - destruct (Qle_bool (kernel_distance r u v) (inject_Z r)); [| apply Qle_refl].
    apply Qlt_le_weak. apply inverse_square_pos. apply Qlt_bool_true. exact Hpos.
  - apply Qle_refl.
Qed.

Lemma kernel_raw_sum_pos `{NumPy} (r : Z) :
  sqrt_exact_on_squares -> (2 <= r)%Z -> 0 < np_sum (kernel_raw r).
Proof.
  intros Hsq Hr.
  apply Qlt_le_trans with (item (kernel_raw r) r (r + 1)%Z).
  - unfold kernel_raw, set_item, kernel_distance. cbn [item].
    replace ((r + 1 =? r)%Z) with false by (symmetry; apply Z.eqb_neq; lia).
    rewrite andb_false_r.
    replace ((r + 1 - r) * (r + 1 - r) + (r - r) * (r - r))%Z with (1 * 1)%Z
      by (replace (r + 1 - r)%Z with 1%Z by lia;
          replace (r - r)%Z with 0%Z by lia; reflexivity).
    pose proof (Hsq 1%Z ltac:(lia)) as H1.
    set (d := np_sqrt (inject_Z (1 * 1))) in *.
    assert (0 < d) as Hd by (rewrite H1; reflexivity).
    assert (d <= inject_Z r) as Hdr.
    { rewrite H1. rewrite <- Zle_Qle. lia. }
    apply Qlt_bool_true in Hd. apply Qle_bool_iff in Hdr.
    rewrite Hd, Hdr. cbn [andb].
    apply inverse_square_pos. apply Qlt_bool_true. exact Hd.
  - apply np_sum_ge_item.
    + intros u v _. apply kernel_raw_nonneg.
    + apply in_shape_true. unfold kernel_raw, set_item. cbn [nrows ncols]. lia.
Qed.

Lemma kernel_raw_center `{NumPy} (r : Z) : item (kernel_raw r) r r = 0.
Proof.
  unfold kernel_raw, set_item. cbn [item]. rewrite Z.eqb_refl. reflexivity.
Qed.

Lemma kernel_raw_rot `{NumPy} (r i j : Z) :
  item (kernel_raw r) j (2 * r + 1 - 1 - i)%Z = item (kernel_raw r) i j.
Proof.
  unfold kernel_raw, set_item, kernel_distance. cbn [item].
  replace ((2 * r + 1 - 1 - i - r) * (2 * r + 1 - 1 - i - r)
           + (j - r) * (j - r))%Z
    with ((j - r) * (j - r) + (i - r) * (i - r))%Z by ring.
  replace ((j =? r)%Z && (2 * r + 1 - 1 - i =? r)%Z)
    with ((i =? r)%Z && (j =? r)%Z); [reflexivity |].
  destruct (Z.eqb_spec i r), (Z.eqb_spec j r),
           (Z.eqb_spec (2 * r + 1 - 1 - i) r); cbn; try reflexivity; lia.
Qed.

Lemma center_index (r : Z) : ((2 * r + 1 - 1) / 2)%Z = r.
Proof. replace (2 * r + 1 - 1)%Z with (r * 2)%Z by lia. apply Z.div_mul. lia. Qed.

(** C6.  The kernel built from a configuration and a cell size has
    non-centre weights that add up to [diffusion_rate], a centre weight of
    [1 - diffusion_rate], hence a total of 1, and it is unchanged by a
    quarter turn. *)
Theorem kernel_is_normalised `{NumPy} (cfg : SimulationConfig) (cell_size : Q) :
  sqrt_exact_on_squares ->
  0 <= diffusion_rate cfg <= 1 ->
  0 < cell_size ->
  let k := _create_migration_kernel cfg cell_size in
  let r := kernel_radius cfg cell_size in
  np_sum (off_center k) == diffusion_rate cfg
  /\ item k r r == 1 - diffusion_rate cfg
  /\ np_sum k == 1
  /\ array_eq (rot90 k) k.
Proof.
  intros Hsq _ _ k r.
  pose proof (kernel_radius_range cfg cell_size) as Hr. fold r in Hr.
  assert (0 < np_sum (kernel_raw r)) as HS
      by (apply kernel_raw_sum_pos; [exact Hsq | lia]).
  set (S := np_sum (kernel_raw r)) in *.
  set (X := amap (fun x => x / S * diffusion_rate cfg) (kernel_raw r)).
  assert (k = set_item X r r (1.0 - diffusion_rate cfg)) as Hk.
  { unfold k, _create_migration_kernel. cbv zeta. fold r. fold S.
    pose proof HS as Hb. apply Qlt_bool_true in Hb. rewrite Hb. reflexivity. }
  assert (nrows k = (2 * r + 1)%Z /\ ncols k = (2 * r + 1)%Z) as [Hrows Hcols]
      by (rewrite Hk; split; reflexivity).
  assert (np_sum (set_item X r r 0) == diffusion_rate cfg) as Hoff.
  { rewrite (np_sum_ext _ (amap (fun x => x * (diffusion_rate cfg / S))
                               (kernel_raw r))).
    - rewrite np_sum_scale. fold S. field. lra.
    - reflexivity.
    - reflexivity.
    - intros u v _. unfold set_item, X, amap. cbn [item].
      destruct (Z.eqb_spec u r) as [-> | Nu]; cbn [andb].
      + destruct (Z.eqb_spec v r) as [-> | Nv].
        * rewrite kernel_raw_center. ring.
        * field. lra.
      + field. lra. }
  assert (in_shape X r r = true) as Hcenter.
  { apply in_shape_true. unfold X, amap, kernel_raw, set_item.
    cbn [nrows ncols]. lia. }
  split; [| split; [| split]].
  - unfold off_center. rewrite Hrows, Hcols, center_index. rewrite Hk.
    apply Qeq_trans with (np_sum (set_item X r r 0)); [| exact Hoff].
    apply np_sum_ext; [reflexivity | reflexivity |].
    intros u v _. unfold set_item. cbn [item].
    destruct ((u =? r)%Z && (v =? r)%Z); reflexivity.
  - rewrite Hk. unfold set_item. cbn [item]. rewrite Z.eqb_refl. cbn [andb]. lra.
  - rewrite Hk, (np_sum_set_item X r r _ Hcenter), Hoff. lra.
  - unfold array_eq, rot90. cbn [nrows ncols item].
    rewrite Hrows, Hcols. split; [reflexivity | split; [reflexivity |]].
    intros i j _. rewrite Hk. unfold set_item, X, amap. cbn [item].
    rewrite kernel_raw_rot.
    replace ((j =? r)%Z && (2 * r + 1 - 1 - i =? r)%Z)
      with ((i =? r)%Z && (j =? r)%Z); [reflexivity |].
    destruct (Z.eqb_spec i r), (Z.eqb_spec j r),
             (Z.eqb_spec (2 * r + 1 - 1 - i) r); cbn; try reflexivity; lia.
Qed.

Lemma kernel_is_normalised_witness :
  let k := @_create_migration_kernel floor_numpy default_config 1 in
  let r := kernel_radius default_config 1 in
  np_sum (off_center k) == diffusion_rate default_config
  /\ item k r r == 1 - diffusion_rate default_config
  /\ np_sum k == 1
  /\ array_eq (rot90 k) k.
Proof.
  apply (@kernel_is_normalised floor_numpy).
  - exact floor_numpy_sqrt_exact_on_squares.
  - split; apply Qle_bool_iff; reflexivity.
  - reflexivity.
Defined.

(* ------------------------------------------------------------------ *)
(** ** Empty cells stay empty *)

Lemma np_clip_of_zero (x lo hi : Q) :
  x == 0 -> lo <= 0 -> 0 <= hi -> np_clip x lo hi == 0.
Proof.
  intros Hx Hlo Hhi. unfold np_clip.
  destruct (py_max_cases x lo) as [[C E] | [C E]]; rewrite E.
  - assert (lo == 0) as Hl by lra.
    destruct (py_min_cases lo hi) as [[C' E'] | [C' E']]; rewrite E'; lra.
  - destruct (py_min_cases x hi) as [[C' E'] | [C' E']]; rewrite E'; lra.
Qed.

Lemma new_pop_cell_zero (cfg : SimulationConfig) (pop cc fs : Q) :
  pop == 0 -> new_pop_cell cfg pop cc fs == 0.
Proof.
  intro Hp. unfold new_pop_cell. cbv zeta.
  apply np_clip_of_zero; [| lra | lra].
  generalize (np_clip (growth_factor_preclip cfg pop cc fs) (-0.3) 0.15).
  intro g. rewrite Hp. ring.
Qed.

Lemma migrate_shape (s : Simulation) (cc : ndarray) :
  nrows (_migrate s cc) = nrows (population s)
  /\ ncols (_migrate s cc) = ncols (population s).
Proof.
  unfold _migrate. cbv zeta.
  destruct (Qlt_bool (np_sum (population s)) 0.1); [split; reflexivity |].
  destruct (Qlt_bool 0 (np_sum (migrate_masked s cc))); split; reflexivity.
Qed.

Lemma step_shape (s : Simulation) :
  nrows (population (fst (step s))) = nrows (population s)
  /\ ncols (population (fst (step s))) = ncols (population s).
Proof.
  rewrite step_population. unfold _update_population, amap3. cbn [nrows ncols].
  apply (migrate_shape (with_biomass s (updated_biomass s))).
Qed.

(** A cell that the masking clears is 0 after migration, rescaled or not. *)
Lemma migrate_masked_cell (s : Simulation) (cc : ndarray) (i j : Z) :
  0.1 <= np_sum (population s) ->
  item (migrate_masked s cc) i j == 0 ->
  item (_migrate s cc) i j == 0.
Proof.
  intros Hsum Hz. unfold _migrate. cbv zeta.
  apply Qlt_bool_false in Hsum. rewrite Hsum.
  destruct (Qlt_bool 0 (np_sum (migrate_masked s cc))).
  - unfold amap. cbn [item]. rewrite Hz. ring.
  - exact Hz.
Qed.

Lemma migrate_skipped (s : Simulation) (cc : ndarray) :
  np_sum (population s) < 0.1 -> _migrate s cc = population s.
Proof.
  intro Hsum. apply Qlt_bool_true in Hsum. unfold _migrate. rewrite Hsum.
  reflexivity.
Qed.

Lemma masked_on_border (s : Simulation) (cc : ndarray) (i j : Z) :
  on_border (nrows (population s)) (ncols (population s)) i j = true ->
  item (migrate_masked s cc) i j == 0.
Proof.
  intro Hb. unfold migrate_masked, mask_water_and_edges, mask_edges. cbv zeta.
  cbn [item nrows ncols mask_water biased fftconvolve_same].
  rewrite Hb. reflexivity.
Qed.

Lemma masked_on_water (s : Simulation) (cc : ndarray) (i j : Z) :
  is_water (max_biomass s) i j = true ->
  item (migrate_masked s cc) i j == 0.
Proof.
  intro Hw. unfold is_water in Hw.
  unfold migrate_masked, mask_water_and_edges, mask_edges. cbv zeta.
  cbn [item nrows ncols mask_water biased fftconvolve_same].
  destruct (on_border _ _ i j); [reflexivity |].
  rewrite Hw. reflexivity.
Qed.

(** A selection of cells that the masking clears, and that is empty before
    a step or cleared by its migration, is empty after the step. *)
Lemma step_keeps_zero (s : Simulation) (sel : Z -> Z -> bool) :
  (forall cc i j, sel i j = true -> item (migrate_masked s cc) i j == 0) ->
  0.1 <= np_sum (population s) \/ zero_on sel (population s) ->
  zero_on sel (population (fst (step s))).
Proof.
  intros Hmask Hcase i j Hin Hsel.
  pose proof (step_shape s) as [Hr Hc].
  assert (in_shape (population s) i j = true) as Hin0.
  { apply in_shape_true. apply in_shape_true in Hin. rewrite <- Hr, <- Hc.
    exact Hin. }
  rewrite step_population. unfold _update_population, amap3. cbn [item].
  apply new_pop_cell_zero.
  set (s1 := with_biomass s (updated_biomass s)).
  destruct (Qlt_le_dec (np_sum (population s)) 0.1) as [Hlt | Hge].
  - rewrite (migrate_skipped s1) by exact Hlt.
    destruct Hcase as [Hge | Hz]; [lra |].
    apply Hz; assumption.
  - apply (migrate_masked_cell s1); [exact Hge |].
    apply (Hmask (carrying_capacity s) i j Hsel).
Qed.

(* ------------------------------------------------------------------ *)
(** ** Integer sums and windows *)

Lemma count_n_nonneg (n : nat) (f : Z -> Z) :
  (forall i, (0 <= i < Z.of_nat n)%Z -> (0 <= f i)%Z) -> (0 <= count_n n f)%Z.
Proof.
  induction n as [| k IH]; intro E; cbn [count_n].
  - lia.
  - assert (0 <= count_n k f)%Z by (apply IH; intros i Hi; apply E; lia).
    assert (0 <= f (Z.of_nat k))%Z by (apply E; lia).
    lia.
Qed.

Lemma count_n_zero_inv (n : nat) (f : Z -> Z) :
  (forall i, (0 <= i < Z.of_nat n)%Z -> (0 <= f i)%Z) ->
  count_n n f = 0%Z ->
  forall i, (0 <= i < Z.of_nat n)%Z -> f i = 0%Z.
Proof.
  induction n as [| k IH]; intros E Hsum i Hi; cbn [count_n] in Hsum.
  - lia.
  - assert (0 <= count_n k f)%Z
      by (apply count_n_nonneg; intros u Hu; apply E; lia).
    assert (0 <= f (Z.of_nat k))%Z by (apply E; lia).
    destruct (Z.eq_dec i (Z.of_nat k)) as [-> | Ne]; [lia |].
    apply IH; [intros u Hu; apply E; lia | lia | lia].
Qed.

Lemma sumZ2_nonneg (h w : Z) (f : Z -> Z -> Z) :
  (forall i j, (0 <= f i j)%Z) -> (0 <= sumZ2 h w f)%Z.
Proof.
  intro E. unfold sumZ2, sumZ_to. apply count_n_nonneg. intros i _.
  apply count_n_nonneg. intros j _. apply E.
Qed.

Lemma sumZ2_zero_inv (h w : Z) (f : Z -> Z -> Z) :
  (forall i j, (0 <= f i j)%Z) ->
  sumZ2 h w f = 0%Z ->
  forall i j, (0 <= i < h)%Z -> (0 <= j < w)%Z -> f i j = 0%Z.
Proof.
  intros E Hsum i j Hi Hj. unfold sumZ2, sumZ_to in Hsum.
  assert (count_n (Z.to_nat w) (fun v => f i v) = 0%Z) as Hrow.
  { apply (count_n_zero_inv (Z.to_nat h)
             (fun u => count_n (Z.to_nat w) (fun v => f u v))).
    - intros u _. apply count_n_nonneg. intros v _. apply E.
    - exact Hsum.
    - lia. }
  apply (count_n_zero_inv (Z.to_nat w) (fun v => f i v)).
  - intros v _. apply E.
  - exact Hrow.
  - lia.
Qed.

Lemma sum_n_inject (n : nat) (f : Z -> Z) :
  sum_n n (fun i => inject_Z (f i)) == inject_Z (count_n n f).
Proof.
  induction n as [| k IH]; cbn [sum_n count_n].
  - reflexivity.
  - rewrite IH, inject_Z_plus. reflexivity.
Qed.

Lemma in_range_false (n i : Z) : in_range n i = false <-> (i < 0 \/ n <= i)%Z.
Proof.
  unfold in_range. rewrite andb_false_iff, Z.leb_gt, Z.ltb_ge. tauto.
Qed.

(** A window of [n] cells placed at offset [r0] on an axis carries, up to
    any length [H] of the axis, the sum of the part of it that lies below
    [H]. *)
Lemma sum_n_window (H : nat) (r0 n : Z) (g : Z -> Q) :
  (0 <= r0)%Z ->
  sum_n H (fun i => if in_range n (i - r0) then g (i - r0)%Z else 0)
  == sum_n (Z.to_nat (Z.min n (Z.of_nat H - r0))) g.
Proof.
  intro Hr0. induction H as [| K IH]; cbn [sum_n].
  - replace (Z.to_nat (Z.min n (Z.of_nat 0 - r0))) with O by lia. reflexivity.
  - rewrite IH. destruct (in_range n (Z.of_nat K - r0)) eqn:E.
    + apply in_range_true in E.
      replace (Z.to_nat (Z.min n (Z.of_nat (S K) - r0)))
        with (S (Z.to_nat (Z.of_nat K - r0))) by lia.
      cbn [sum_n].
      replace (Z.to_nat (Z.min n (Z.of_nat K - r0)))
        with (Z.to_nat (Z.of_nat K - r0)) by lia.
      rewrite Z2Nat.id by lia. reflexivity.
    + apply in_range_false in E.
      replace (Z.to_nat (Z.min n (Z.of_nat (S K) - r0)))
        with (Z.to_nat (Z.min n (Z.of_nat K - r0))) by lia.
      ring.
Qed.

Lemma sum_to_window (h r0 n : Z) (g : Z -> Q) :
  (0 <= r0)%Z ->
  (n <= 0 \/ r0 + n <= h)%Z ->
  sum_to h (fun i => if in_range n (i - r0) then g (i - r0)%Z else 0)
  == sum_to n g.
Proof.
  intros Hr0 Hfit. unfold sum_to. rewrite sum_n_window by exact Hr0.
  replace (Z.to_nat (Z.min n (Z.of_nat (Z.to_nat h) - r0))) with (Z.to_nat n)
    by lia.
  reflexivity.
Qed.

(** The same on both axes: an array that holds [A] in a window and 0
    elsewhere sums to the sum of [A]. *)
Lemma np_sum_window (h w r0 nr c0 nc : Z) (A : Z -> Z -> Q) :
  (0 <= r0)%Z -> (nr <= 0 \/ r0 + nr <= h)%Z ->
  (0 <= c0)%Z -> (nc <= 0 \/ c0 + nc <= w)%Z ->
  np_sum (mk_array h w (fun i j =>
            if in_range nr (i - r0) && in_range nc (j - c0)
            then A (i - r0)%Z (j - c0)%Z else 0))
  == sum_to nr (fun a => sum_to nc (fun b => A a b)).
Proof.
  intros Hr0 Hr Hc0 Hc. unfold np_sum. cbn [nrows ncols item].
  rewrite <- (sum_to_window h r0 nr
                (fun a => sum_to nc (fun b => A a b)) Hr0 Hr).
  apply sum_to_ext. intros i _.
  destruct (in_range nr (i - r0)); cbn [andb].
  - apply (sum_to_window w c0 nc (fun b => A (i - r0)%Z b) Hc0 Hc).
  - apply sum_to_zero. intros j _. reflexivity.
Qed.

Lemma sum_to_inject (n : Z) (f : Z -> Z) :
  sum_to n (fun i => inject_Z (f i)) == inject_Z (sumZ_to n f).
Proof. apply sum_n_inject. Qed.

(** Integer counts rescaled to a target: the rescaled counts add up to
    the target. *)
Lemma Qmul_div_cancel (x t : Q) : 0 < t -> t * (x / t) == x.
Proof. intro Ht. field. lra. Qed.

Lemma Qdiv_as_mul (a x t : Q) : 0 < t -> a * x / t == a * (x / t).
Proof. intro Ht. field. lra. Qed.

Lemma rescaled_sum (nr nc : Z) (A : Z -> Z -> Z) (target : Z) :
  (0 < sumZ2 nr nc A)%Z ->
  sum_to nr (fun a => sum_to nc (fun b =>
    inject_Z (A a b * target) / inject_Z (sumZ2 nr nc A)))
  == inject_Z target.
Proof.
  intro Hpos. set (T := sumZ2 nr nc A) in *.
  assert (0 < inject_Z T) as HT
      by (change 0 with (inject_Z 0); rewrite <- Zlt_Qlt; exact Hpos).
  set (c := inject_Z target / inject_Z T).
  rewrite (sum_to_ext nr _ (fun a => inject_Z (sumZ_to nc (A a)) * c)).
  - rewrite sum_to_scale, sum_to_inject.
    change (sumZ_to nr (fun i => sumZ_to nc (A i))) with T.
    apply Qmul_div_cancel. exact HT.
  - intros a _.
    rewrite (sum_to_ext nc _ (fun b => inject_Z (A a b) * c)).
    + rewrite sum_to_scale, sum_to_inject. reflexivity.
    + intros b _. rewrite inject_Z_mult. apply Qdiv_as_mul. exact HT.
Qed.

(* ------------------------------------------------------------------ *)
(** ** Seeding *)

Lemma seed_window_fits (h w center_row center_col radius : Z) :
  let win := seed_window h w center_row center_col radius in
  (0 <= r_lo win)%Z
  /\ (n_rows win <= 0 \/ r_lo win + n_rows win <= h)%Z
  /\ (0 <= c_lo win)%Z
  /\ (n_cols win <= 0 \/ c_lo win + n_cols win <= w)%Z.
Proof. unfold seed_window. cbn [r_lo n_rows c_lo n_cols]. lia. Qed.

Lemma seed_actual_nonneg `{NumPy} (bio : ndarray) (win : Window)
    (center_row center_col radius total_population a b : Z) :
  poisson_nonneg ->
  (0 <= seed_actual bio win center_row center_col radius total_population a b)%Z.
Proof.
  intro Hp. unfold seed_actual.
  destruct (valid_mask bio win center_row center_col radius a b);
    [apply Hp | lia].
Qed.

Lemma seed_actual_on_water `{NumPy} (bio : ndarray) (win : Window)
    (center_row center_col radius total_population a b : Z) :
  Qle_bool (item bio (r_lo win + a)%Z (c_lo win + b)%Z) 0 = true ->
  seed_actual bio win center_row center_col radius total_population a b = 0%Z.
Proof.
  intro Hw. unfold seed_actual, valid_mask.
  apply Qle_bool_iff in Hw. apply Qlt_bool_false in Hw. rewrite Hw.
  rewrite andb_false_r. reflexivity.
Qed.

Lemma Qzero_div (t : Q) : 0 / t == 0.
Proof. unfold Qdiv. ring. Qed.

(** Water cells receive nothing at seeding. *)
Lemma initial_population_on_water `{NumPy} (bio : ndarray)
    (radius center_row center_col total_population : Z) :
  zero_on (is_water bio)
          (_initialize_population bio radius center_row center_col total_population).
Proof.
  intros i j _ Hw. unfold is_water in Hw.
  unfold _initialize_population. cbv zeta.
  set (win := seed_window (nrows bio) (ncols bio) center_row center_col radius).
  destruct (count2 (n_rows win) (n_cols win) _ =? 0)%Z; [reflexivity |].
  cbn [item].
  destruct (in_range (n_rows win) (i - r_lo win)
            && in_range (n_cols win) (j - c_lo win)); [| reflexivity].
  assert (seed_actual bio win center_row center_col radius total_population
            (i - r_lo win) (j - c_lo win) = 0%Z) as E.
  { apply seed_actual_on_water.
    replace (r_lo win + (i - r_lo win))%Z with i by lia.
    replace (c_lo win + (j - c_lo win))%Z with j by lia.
    exact Hw. }
  destruct (0 <? sumZ2 _ _ _)%Z; rewrite E; [apply Qzero_div | reflexivity].
Qed.

(** The seeded population is empty, or its total is the head count. *)
Lemma initial_population_total `{NumPy} (bio : ndarray)
    (radius center_row center_col total_population : Z) :
  poisson_nonneg ->
  (0 <= total_population)%Z ->
  let p :=
    _initialize_population bio radius center_row center_col total_population in
  (forall i j, item p i j == 0)
  \/ (np_sum p == inject_Z total_population /\ (1 <= total_population)%Z).
Proof.
  intros Hp Htp. unfold _initialize_population. cbv zeta.
  set (win := seed_window (nrows bio) (ncols bio) center_row center_col radius).
  set (A := seed_actual bio win center_row center_col radius total_population).
  assert (forall a b, (0 <= A a b)%Z) as HA
      by (intros a b; apply seed_actual_nonneg; exact Hp).
  destruct (count2 (n_rows win) (n_cols win) _ =? 0)%Z;
    [left; intros i j; reflexivity |].
  destruct (Z.ltb_spec 0 (sumZ2 (n_rows win) (n_cols win) A)) as [Hpos | Hnot].
  - destruct (Z.eq_dec total_population 0) as [E0 | Ne].
    + left. intros i j. cbn [item].
      destruct (in_range _ _ && in_range _ _); [| reflexivity].
      rewrite E0, Z.mul_0_r. apply Qzero_div.
    + right. split; [| lia].
      pose proof (seed_window_fits (nrows bio) (ncols bio)
                    center_row center_col radius) as Hfit.
      cbv zeta in Hfit. fold win in Hfit.
      destruct Hfit as (Hr0 & Hr & Hc0 & Hc).
      rewrite (np_sum_window _ _ _ _ _ _
                 (fun a b => inject_Z (A a b * total_population)
                             / inject_Z (sumZ2 (n_rows win) (n_cols win) A))
                 Hr0 Hr Hc0 Hc).
      apply rescaled_sum. exact Hpos.
  - left. intros i j. cbn [item].
    pose proof (sumZ2_nonneg (n_rows win) (n_cols win) A HA) as Hge.
    assert (sumZ2 (n_rows win) (n_cols win) A = 0%Z) as Hzero by lia.
    destruct (in_range (n_rows win) (i - r_lo win)) eqn:Ei; cbn [andb];
      [| reflexivity].
    destruct (in_range (n_cols win) (j - c_lo win)) eqn:Ej; [| reflexivity].
    apply in_range_true in Ei. apply in_range_true in Ej.
    rewrite (sumZ2_zero_inv _ _ A HA Hzero _ _ Ei Ej). reflexivity.
Qed.

(* ------------------------------------------------------------------ *)
(** ** Water and border cells *)

Lemma step_keeps_water_empty (s : Simulation) :
  water_empty s -> water_empty (fst (step s)).
Proof.
  intro Hw. unfold water_empty. rewrite step_max_biomass.
  apply step_keeps_zero.
  - intros cc i j Hsel. apply masked_on_water. exact Hsel.
  - right. exact Hw.
Qed.

Lemma step_empties_border (s : Simulation) :
  0.1 <= np_sum (population s) \/ border_empty s ->
  border_empty (fst (step s)).
Proof.
  intro Hcase. unfold border_empty, is_border.
  destruct (step_shape s) as [Hr Hc]. rewrite Hr, Hc.
  apply step_keeps_zero.
  - intros cc i j Hsel. apply masked_on_border. exact Hsel.
  - exact Hcase.
Qed.

Lemma steps_keep_cells_empty (n : nat) (s : Simulation) :
  water_empty s -> border_empty s ->
  water_empty (steps n s) /\ border_empty (steps n s)
  /\ max_biomass (steps n s) = max_biomass s
  /\ nrows (population (steps n s)) = nrows (population s)
  /\ ncols (population (steps n s)) = ncols (population s).
Proof.
  revert s. induction n as [| k IH]; intros s Hw Hb; cbn [steps].
  - repeat split; assumption.
  - destruct (IH (fst (step s))) as (Hw' & Hb' & Hm & Hr & Hc).
    + apply step_keeps_water_empty. exact Hw.
    + apply step_empties_border. right. exact Hb.
    + destruct (step_shape s) as [Hr0 Hc0].
      split; [exact Hw' | split; [exact Hb' | split; [| split]]].
      * rewrite Hm. apply step_max_biomass.
      * rewrite Hr. exact Hr0.
      * rewrite Hc. exact Hc0.
Qed.




(* ================================================================== *)
(** * Further properties of the code *)

(* ------------------------------------------------------------------ *)
(** ** Sessions *)

Lemma steps_add (a b : nat) (s : Simulation) :
  steps (a + b) s = steps b (steps a s).
Proof.
  revert s. induction a as [| k IH]; intro s; cbn [steps Nat.add].
  - reflexivity.
  - apply IH.
Qed.

Lemma step_biomass_shape (s : Simulation) :
  nrows (biomass (fst (step s))) = nrows (biomass s)
  /\ ncols (biomass (fst (step s))) = ncols (biomass s).
Proof. split; reflexivity. Qed.

Lemma steps_shapes (n : nat) (s : Simulation) :
  nrows (biomass (steps n s)) = nrows (biomass s)
  /\ ncols (biomass (steps n s)) = ncols (biomass s)
  /\ nrows (population (steps n s)) = nrows (population s)
  /\ ncols (population (steps n s)) = ncols (population s).
Proof.
  revert s. induction n as [| k IH]; intro s; cbn [steps].
  - repeat split.
  - destruct (IH (fst (step s))) as (A & B & C & D).
    destruct (step_shape s) as [E F].
    destruct (step_biomass_shape s) as [G K].
    rewrite A, B, C, D, E, F, G, K. repeat split.
Qed.

Lemma initial_population_shape `{NumPy} (bio : ndarray)
    (radius center_row center_col total_population : Z) :
  nrows (_initialize_population bio radius center_row center_col total_population)
  = nrows bio
  /\ ncols (_initialize_population bio radius center_row center_col total_population)
     = ncols bio.
Proof.
  unfold _initialize_population. cbv zeta.
  destruct (count2 _ _ _ =? 0)%Z; split; reflexivity.
Qed.

Lemma step_simulation_started (years : Z) (g : Globals) (s : Simulation) :
  _sim g = Some s ->
  (1 <= years)%Z ->
  step_simulation years g
  = (mk_globals (Some (steps (Z.to_nat years) s))
                (_biomass_data g) (_cell_size_km g),
     StateReply (_get_state (steps (Z.to_nat years) s))).
Proof.
  intros Hs Hy. unfold step_simulation. rewrite Hs, step_loop_steps.
  destruct (Z.to_nat years) eqn:E; [lia | reflexivity].
Qed.

(** Starting without loaded data is refused with "Data not loaded", leaves
    the module state untouched, and a step after it is refused as well. *)
Theorem start_simulation_needs_data `{NumPy} (row col total_population years : Z)
    (g : Globals) :
  _biomass_data g = None ->
  _sim g = None ->
  start_simulation row col total_population g = (g, ErrorReply "Data not loaded")
  /\ step_simulation years (fst (start_simulation row col total_population g))
     = (g, ErrorReply "Simulation not started").
Proof.
  intros Hd Hs.
  assert (start_simulation row col total_population g
          = (g, ErrorReply "Data not loaded")) as E
      by (unfold start_simulation; rewrite Hd; reflexivity).
  split; [exact E |]. rewrite E. cbn [fst].
  unfold step_simulation. rewrite Hs. reflexivity.
Qed.

Lemma start_simulation_needs_data_witness :
  @start_simulation floor_numpy 1 1 100 initial_globals
  = (initial_globals, ErrorReply "Data not loaded")
  /\ step_simulation 2 (fst (@start_simulation floor_numpy 1 1 100 initial_globals))
     = (initial_globals, ErrorReply "Simulation not started").
Proof.
  apply (@start_simulation_needs_data floor_numpy); reflexivity.
Defined.

(** A whole session, for a positive cell size and a head count that is
    not negative: after [load_data], [start_simulation] answers with
    the snapshot of year 0 of a simulation on the loaded grid with the
    default configuration, and [step_simulation years] then answers with
    the snapshot of year [years], whose two grids have the shape of the
    loaded grid. *)
Theorem load_start_step_session `{NumPy} (bio : ndarray) (cell_size : Q)
    (row col total_population years : Z) (g : Globals) :
  0 < cell_size ->
  (0 <= total_population)%Z ->
  (1 <= years)%Z ->
  let g1 := fst (load_data bio cell_size g) in
  let s0 := fst (initialize default_config bio cell_size row col total_population) in
  start_simulation row col total_population g1
  = (mk_globals (Some s0) (Some bio) cell_size, StateReply (_get_state s0))
  /\ snap_year (_get_state s0) = 0%Z
  /\ exists st,
       snd (step_simulation years
              (fst (start_simulation row col total_population g1)))
       = StateReply st
       /\ snap_year st = years
       /\ nrows (snap_biomass st) = nrows bio
       /\ ncols (snap_biomass st) = ncols bio
       /\ nrows (snap_population st) = nrows bio
       /\ ncols (snap_population st) = ncols bio.
Proof.
  intros _ _ Hy g1 s0.
  assert (start_simulation row col total_population g1
          = (mk_globals (Some s0) (Some bio) cell_size,
             StateReply (_get_state s0))) as E by reflexivity.
  split; [exact E |]. split; [reflexivity |].
  rewrite E. cbn [fst].
  rewrite (step_simulation_started years
             (mk_globals (Some s0) (Some bio) cell_size) s0 eq_refl Hy).
  cbn [snd].
  eexists. split; [reflexivity |].
  destruct (steps_shapes (Z.to_nat years) s0) as (A & B & C & D).
  destruct (initial_population_shape bio
              (_calculate_release_radius default_config bio row col total_population)
              row col total_population) as [P1 P2].
  unfold _get_state. cbn [snap_year snap_biomass snap_population].
  rewrite steps_year, A, B, C, D.
  repeat split; try assumption. unfold s0. cbn. lia.
Qed.

Lemma load_start_step_session_witness :
  exists st,
    snd (step_simulation 2
           (fst (@start_simulation floor_numpy 1 1 100
                   (fst (load_data uniform_land 1 initial_globals)))))
    = StateReply st
    /\ snap_year st = 2%Z /\ nrows (snap_population st) = 3%Z.
Proof.
  destruct (@load_start_step_session floor_numpy uniform_land 1 1 1 100 2
              initial_globals eq_refl ltac:(lia) ltac:(lia))
    as (_ & _ & st & Hst & Hy & _ & _ & Hr & _).
  exists st. repeat split; assumption.
Defined.

(** Stepping [a] years and then [b] years leaves the module state and the
    reply that stepping [a + b] years at once does. *)
Theorem step_simulation_composes (a b : Z) (g : Globals) (s : Simulation) :
  _sim g = Some s ->
  (0 <= a)%Z ->
  (1 <= b)%Z ->
  step_simulation b (fst (step_simulation a g)) = step_simulation (a + b) g.
Proof.
  intros Hs Ha Hb.
  rewrite (step_simulation_started (a + b) g s Hs) by lia.
  replace (Z.to_nat (a + b)) with (Z.to_nat a + Z.to_nat b)%nat by lia.
  rewrite steps_add.
  destruct (Z.eq_dec a 0) as [-> | Hne].
  - assert (step_simulation 0 g = (g, Raises "TypeError")) as E0.
    { unfold step_simulation. rewrite Hs. cbn [Z.to_nat step_loop].
      destruct g as [sim bd cs]. cbn in Hs |- *. rewrite Hs. reflexivity. }
    rewrite E0. cbn [fst Z.to_nat steps].
    apply step_simulation_started; assumption.
  - rewrite (step_simulation_started a g s Hs) by lia. cbn [fst].
    rewrite (step_simulation_started b
               (mk_globals (Some (steps (Z.to_nat a) s))
                           (_biomass_data g) (_cell_size_km g))
               (steps (Z.to_nat a) s) eq_refl Hb).
    reflexivity.
Qed.

Lemma step_simulation_composes_witness :
  step_simulation 2 (fst (step_simulation 1 sparse_session))
  = step_simulation (1 + 2) sparse_session.
Proof.
  apply (step_simulation_composes 1 2 sparse_session sparse_state);
    [reflexivity | lia | lia].
Defined.

(** Loading new data while a simulation runs does not touch it: a step
    after [load_data] gives the reply, and leaves the simulation, that the
    step without it gives. *)
Theorem load_data_leaves_simulation (bio : ndarray) (cell_size : Q)
    (years : Z) (g : Globals) :
  snd (step_simulation years (fst (load_data bio cell_size g)))
  = snd (step_simulation years g)
  /\ _sim (fst (step_simulation years (fst (load_data bio cell_size g))))
     = _sim (fst (step_simulation years g))
  /\ _biomass_data (fst (step_simulation years (fst (load_data bio cell_size g))))
     = Some bio.
Proof.
  unfold step_simulation, load_data. cbn [fst _sim _biomass_data _cell_size_km].
  destruct (_sim g) as [s |] eqn:Hs.
  - destruct (step_loop (Z.to_nat years) s None) as [s' st].
    cbn [fst snd _sim _biomass_data]. split; [| split]; reflexivity.
  - cbn [fst snd _sim _biomass_data]. split; [| split]; [reflexivity | | reflexivity].
    symmetry. exact Hs.
Qed.

(* ------------------------------------------------------------------ *)
(** ** Growth of one cell *)

Lemma np_clip_id (x lo hi : Q) : lo <= x -> x <= hi -> np_clip x lo hi = x.
Proof.
  intros Hlo Hhi. unfold np_clip, py_max, py_min.
  apply Qlt_bool_false in Hlo. rewrite Hlo.
  apply Qlt_bool_false in Hhi. rewrite Hhi. reflexivity.
Qed.

Lemma np_clip_le_self (x lo hi : Q) : lo <= x -> np_clip x lo hi <= x.
Proof.
  intro Hlo. unfold np_clip.
  destruct (py_max_cases x lo) as [[C E] | [C E]]; rewrite E; [lra |].
  destruct (py_min_cases x hi) as [[C' E'] | [C' E']]; rewrite E'; lra.
Qed.

Lemma np_clip_ge (x lo hi b : Q) :
  b <= x -> b <= hi -> b <= np_clip x lo hi.
Proof.
  intros Hx Hhi. unfold np_clip.
  destruct (py_max_cases x lo) as [[C E] | [C E]]; rewrite E;
    destruct (py_min_cases (if Qlt_bool x lo then lo else x) hi)
      as [[C' E'] | [C' E']]; unfold py_max in *;
    destruct (Qlt_bool x lo); rewrite ?E'; try lra;
    destruct (py_min_cases lo hi) as [[D F] | [D F]];
    destruct (py_min_cases x hi) as [[D' F'] | [D' F']];
    rewrite ?F, ?F'; lra.
Qed.

Lemma np_clip_le (x lo hi b : Q) :
  x <= b -> lo <= b -> np_clip x lo hi <= b.
Proof.
  intros Hx Hlo. unfold np_clip.
  destruct (py_max_cases x lo) as [[C E] | [C E]]; rewrite E.
  - destruct (py_min_cases lo hi) as [[C' E'] | [C' E']]; rewrite E'; lra.
  - destruct (py_min_cases x hi) as [[C' E'] | [C' E']]; rewrite E'; lra.
Qed.

Lemma growth_is_clipped (cfg : SimulationConfig) (pop cc fs : Q) :
  -0.3 <= np_clip (growth_factor_preclip cfg pop cc fs) (-0.3) 0.15 <= 0.15.
Proof. apply np_clip_bounds. lra. Qed.

(** One growth sub-step changes a cell by at most +15% and, short of the
    cap of 1e6, by at most -30%. *)
Theorem growth_step_is_bounded (cfg : SimulationConfig) (pop cc fs : Q) :
  0 <= pop ->
  new_pop_cell cfg pop cc fs <= 1.15 * pop
  /\ (1.15 * pop <= 1000000 -> 0.7 * pop <= new_pop_cell cfg pop cc fs).
Proof.
  intro Hpop. unfold new_pop_cell. cbv zeta.
  pose proof (growth_is_clipped cfg pop cc fs) as [Glo Ghi].
  set (g := np_clip (growth_factor_preclip cfg pop cc fs) (-0.3) 0.15) in *.
  assert (0.7 * pop <= pop * (1 + g)) as Xlo by nra.
  assert (pop * (1 + g) <= 1.15 * pop) as Xhi by nra.
  split.
  - apply Qle_trans with (pop * (1 + g)); [| exact Xhi].
    apply np_clip_le_self. lra.
  - intro Hcap. rewrite np_clip_id; lra.
Qed.

Lemma growth_step_is_bounded_witness :
  new_pop_cell default_config 10 5 0.1 <= 1.15 * 10
  /\ (1.15 * 10 <= 1000000 -> 0.7 * 10 <= new_pop_cell default_config 10 5 0.1).
Proof.
  apply growth_step_is_bounded. apply Qle_bool_iff. reflexivity.
Defined.

Lemma preclip_not_well_fed (cfg : SimulationConfig) (pop cc fs : Q) :
  fs <= starvation_threshold cfg ->
  growth_factor_preclip cfg pop cc fs
  = if Qlt_bool pop epsilon then 0
    else - max_growth_rate cfg * (1 - fs / starvation_threshold cfg).
Proof.
  intro Hfs. unfold growth_factor_preclip. cbv zeta.
  apply Qlt_bool_false in Hfs. rewrite Hfs. reflexivity.
Qed.

Lemma preclip_allee (cfg : SimulationConfig) (pop cc fs : Q) :
  starvation_threshold cfg < fs ->
  epsilon <= pop ->
  pop < min_viable_density cfg ->
  growth_factor_preclip cfg pop cc fs
  = -0.2 * (min_viable_density cfg - pop) / min_viable_density cfg.
Proof.
  intros Hfs Heps Hmvd. unfold growth_factor_preclip. cbv zeta.
  apply Qlt_bool_true in Hfs. rewrite Hfs.
  apply Qlt_bool_false in Heps. rewrite Heps.
  apply Qle_bool_false in Hmvd. rewrite Hmvd. reflexivity.
Qed.

Lemma preclip_logistic (cfg : SimulationConfig) (pop cc fs : Q) :
  starvation_threshold cfg < fs ->
  min_viable_density cfg <= pop ->
  growth_factor_preclip cfg pop cc fs
  = if Qlt_bool pop epsilon then 0
    else (if Qlt_bool (pop / (cc + epsilon)) 0.5
          then max_growth_rate cfg + pioneer_bonus cfg
          else max_growth_rate cfg)
         * fs * (1 - pop / (cc + epsilon)).
Proof.
  intros Hfs Hmvd. unfold growth_factor_preclip. cbv zeta.
  apply Qlt_bool_true in Hfs. rewrite Hfs.
  apply Qle_bool_iff in Hmvd. rewrite Hmvd. reflexivity.
Qed.

(** A cell that is not well fed never grows in the growth sub-step. *)
Theorem starving_cell_never_grows (cfg : SimulationConfig) (pop cc fs : Q) :
  0 <= max_growth_rate cfg ->
  0 < starvation_threshold cfg ->
  0 <= fs <= starvation_threshold cfg ->
  0 <= pop ->
  new_pop_cell cfg pop cc fs <= pop.
Proof.
  intros Hm Ht [Hf0 Hf1] Hpop. unfold new_pop_cell. cbv zeta.
  pose proof (growth_is_clipped cfg pop cc fs) as [Glo _].
  assert (np_clip (growth_factor_preclip cfg pop cc fs) (-0.3) 0.15 <= 0) as Gneg.
  { apply np_clip_le; [| lra].
    rewrite (preclip_not_well_fed cfg pop cc fs Hf1).
    destruct (Qlt_bool pop epsilon); [lra |].
    assert (fs / starvation_threshold cfg <= 1) as Hr
        by (apply Qle_shift_div_r; lra).
    nra. }
  set (g := np_clip (growth_factor_preclip cfg pop cc fs) (-0.3) 0.15) in *.
  apply Qle_trans with (pop * (1 + g)).
  - apply np_clip_le_self. nra.
  - nra.
Qed.

Lemma starving_cell_never_grows_witness :
  new_pop_cell default_config 10 5 0.1 <= 10.
Proof.
  apply starving_cell_never_grows.
  - apply Qle_bool_iff. reflexivity.
  - reflexivity.
  - split; apply Qle_bool_iff; reflexivity.
  - apply Qle_bool_iff. reflexivity.
Defined.

(** Allee effect: a well-fed cell that is not empty but below the minimum
    viable density strictly declines. *)
Theorem sparse_cell_declines (cfg : SimulationConfig) (pop cc fs : Q) :
  starvation_threshold cfg < fs ->
  epsilon <= pop ->
  pop < min_viable_density cfg ->
  new_pop_cell cfg pop cc fs < pop.
Proof.
  intros Hfs Heps Hmvd. unfold new_pop_cell. cbv zeta.
  rewrite (preclip_allee cfg pop cc fs Hfs Heps Hmvd).
  assert (0 < pop) as Hpos by (unfold epsilon in Heps; lra).
  assert (0 < min_viable_density cfg) as Hd by lra.
  set (a := -0.2 * (min_viable_density cfg - pop) / min_viable_density cfg).
  assert (a < 0) as Ha by (apply Qlt_shift_div_r; [exact Hd | lra]).
  assert (-0.2 <= a) as Hb by (apply Qle_shift_div_l; [exact Hd | lra]).
  rewrite (np_clip_id a) by lra.
  apply Qle_lt_trans with (pop * (1 + a)).
  - apply np_clip_le_self. nra.
  - nra.
Qed.

Lemma sparse_cell_declines_witness :
  new_pop_cell default_config 0.01 5 1 < 0.01.
Proof.
  apply sparse_cell_declines; reflexivity || (apply Qle_bool_iff; reflexivity).
Defined.

(** Logistic regime: a well-fed, viable cell does not shrink while it is
    at or below the carrying capacity (plus epsilon) and does not grow once
    it is at or above it. *)
Theorem viable_cell_tracks_capacity (cfg : SimulationConfig) (pop cc fs : Q) :
  0 <= max_growth_rate cfg ->
  0 <= pioneer_bonus cfg ->
  0 <= starvation_threshold cfg < fs ->
  min_viable_density cfg <= pop ->
  0 <= pop <= 1000000 ->
  0 <= cc ->
  (pop <= cc + epsilon -> pop <= new_pop_cell cfg pop cc fs)
  /\ (cc + epsilon <= pop -> new_pop_cell cfg pop cc fs <= pop).
Proof.
  intros Hm Hb [Ht Hfs] Hmvd [Hp0 Hp1] Hcc. unfold new_pop_cell. cbv zeta.
  pose proof (growth_is_clipped cfg pop cc fs) as [Glo Ghi].
  assert (0 < cc + epsilon) as Hden by (unfold epsilon; lra).
  set (rate := if Qlt_bool (pop / (cc + epsilon)) 0.5
               then max_growth_rate cfg + pioneer_bonus cfg
               else max_growth_rate cfg).
  assert (0 <= rate) as Hrate by (unfold rate; destruct (Qlt_bool _ _); lra).
  assert (0 <= rate * fs) as Hrf by nra.
  split; intro Hcap.
  - assert (0 <= np_clip (growth_factor_preclip cfg pop cc fs) (-0.3) 0.15) as G.
    { apply np_clip_ge; [| lra].
      rewrite (preclip_logistic cfg pop cc fs Hfs Hmvd). fold rate.
      destruct (Qlt_bool pop epsilon); [lra |].
      assert (pop / (cc + epsilon) <= 1) as Hr
          by (apply Qle_shift_div_r; lra).
      nra. }
    set (g := np_clip (growth_factor_preclip cfg pop cc fs) (-0.3) 0.15) in *.
    apply np_clip_ge; [nra | lra].
  - assert (np_clip (growth_factor_preclip cfg pop cc fs) (-0.3) 0.15 <= 0) as G.
    { apply np_clip_le; [| lra].
      rewrite (preclip_logistic cfg pop cc fs Hfs Hmvd). fold rate.
      destruct (Qlt_bool pop epsilon); [lra |].
      assert (1 <= pop / (cc + epsilon)) as Hr
          by (apply Qle_shift_div_l; lra).
      nra. }
    set (g := np_clip (growth_factor_preclip cfg pop cc fs) (-0.3) 0.15) in *.
    apply Qle_trans with (pop * (1 + g)).
    + apply np_clip_le_self. nra.
    + nra.
Qed.

Lemma viable_cell_tracks_capacity_witness :
  (1 <= 5 + epsilon -> 1 <= new_pop_cell default_config 1 5 1)
  /\ (5 + epsilon <= 1 -> new_pop_cell default_config 1 5 1 <= 1).
Proof.
  apply viable_cell_tracks_capacity;
    try (split; reflexivity || (apply Qle_bool_iff; reflexivity));
    reflexivity || (apply Qle_bool_iff; reflexivity).
Defined.

(* ------------------------------------------------------------------ *)
(** ** Forage *)

Lemma consumed_item (s : Simulation) (i j : Z) :
  item (consumed s) i j
  = py_min (item (biomass s) i j * digestibility_factor (config s)
            * utilization_factor (config s))
           (item (population s) i j * annual_intake_tonnes (config s)).
Proof. reflexivity. Qed.

Lemma updated_biomass_item (s : Simulation) (i j : Z) :
  item (updated_biomass s) i j
  = np_clip_lo (item (biomass s) i j
                + (item (max_biomass s) i j - item (biomass s) i j)
                  * annual_growth_factor (config s)
                - item (consumed s) i j) 0.
Proof. reflexivity. Qed.

Lemma py_min_nonneg (a b : Q) : 0 <= a -> 0 <= b -> 0 <= py_min a b.
Proof.
  intros Ha Hb. destruct (py_min_cases a b) as [[C E] | [C E]]; rewrite E; lra.
Qed.

Lemma py_min_le_l (a b : Q) : py_min a b <= a.
Proof.
  destruct (py_min_cases a b) as [[C E] | [C E]]; rewrite E; lra.
Qed.

Lemma py_max_le (x lo b : Q) : x <= b -> lo <= b -> py_max x lo <= b.
Proof.
  intros Hx Hlo. destruct (py_max_cases x lo) as [[C E] | [C E]]; rewrite E; lra.
Qed.

Lemma consumed_bounds (s : Simulation) (i j : Z) :
  0 <= digestibility_factor (config s) ->
  0 <= utilization_factor (config s) ->
  0 <= annual_intake_tonnes (config s) ->
  0 <= item (biomass s) i j ->
  0 <= item (population s) i j ->
  0 <= item (consumed s) i j
       <= item (biomass s) i j * digestibility_factor (config s)
          * utilization_factor (config s).
Proof.
  intros Hd Hu Hi Hb Hp. rewrite consumed_item. split.
  - apply py_min_nonneg; [| nra].
    apply Qmult_le_0_compat; [apply Qmult_le_0_compat |]; assumption.
  - apply py_min_le_l.
Qed.

Lemma step_keeps_well_shaped (s : Simulation) :
  well_shaped s -> well_shaped (fst (step s)).
Proof.
  intros (A & B & C & D). destruct (step_shape s) as [E F].
  unfold well_shaped. rewrite E, F, step_max_biomass.
  repeat split; assumption.
Qed.

Lemma step_population_nonneg (s : Simulation) :
  nonneg_array (population (fst (step s))).
Proof.
  intros i j _. rewrite step_population.
  unfold _update_population, amap3. cbn [item]. apply new_pop_cell_bounds.
Qed.

Lemma step_keeps_within_ceiling (s : Simulation) :
  0 <= digestibility_factor (config s) ->
  0 <= utilization_factor (config s) ->
  0 <= annual_intake_tonnes (config s) ->
  0 <= annual_growth_factor (config s) <= 1 ->
  well_shaped s ->
  nonneg_array (population s) ->
  within_ceiling s ->
  within_ceiling (fst (step s)).
Proof.
  intros Hd Hu Hi [Hg0 Hg1] (A & B & C & D) Hpop Hin i j Hij.
  rewrite step_max_biomass, step_biomass, updated_biomass_item.
  assert (in_shape (biomass s) i j = true) as Hij0 by exact Hij.
  destruct (Hin i j Hij0) as [Hb0 Hb1].
  assert (0 <= item (population s) i j) as Hp.
  { apply Hpop. apply in_shape_true. apply in_shape_true in Hij0.
    rewrite C, D. exact Hij0. }
  destruct (consumed_bounds s i j Hd Hu Hi Hb0 Hp) as [Hc0 _].
  split; [apply py_max_lower |].
  apply py_max_le; [nra | lra].
Qed.

(** Forage stays between 0 and its ceiling: if every biomass cell starts
    in [[0, max_biomass]] and no population cell is negative, the same holds
    after any number of steps (growth factor in [[0, 1]], non-negative
    digestibility, utilisation and intake). *)
Theorem biomass_stays_within_ceiling (n : nat) (s : Simulation) :
  0 <= digestibility_factor (config s) ->
  0 <= utilization_factor (config s) ->
  0 <= annual_intake_tonnes (config s) ->
  0 <= annual_growth_factor (config s) <= 1 ->
  well_shaped s ->
  nonneg_array (population s) ->
  within_ceiling s ->
  within_ceiling (steps n s).
Proof.
  revert s. induction n as [| k IH]; intros s Hd Hu Hi Hg Hshape Hpop Hin;
    cbn [steps].
  - exact Hin.
  - apply IH; try assumption.
    + apply step_keeps_well_shaped. exact Hshape.
    + apply step_population_nonneg.
    + apply step_keeps_within_ceiling; assumption.
Qed.

Lemma small_state_well_shaped : well_shaped small_state.
Proof. repeat split. Qed.

Lemma small_state_within_ceiling : within_ceiling small_state.
Proof. intros i j _. cbn. lra. Qed.

Lemma small_state_population_nonneg : nonneg_array (population small_state).
Proof. intros i j _. cbn. destruct ((i =? 1)%Z && (j =? 1)%Z); lra. Qed.

Lemma biomass_stays_within_ceiling_witness :
  within_ceiling (steps 2 small_state).
Proof.
  apply biomass_stays_within_ceiling.
  - apply Qle_bool_iff. reflexivity.
  - apply Qle_bool_iff. reflexivity.
  - apply Qle_bool_iff. reflexivity.
  - split; apply Qle_bool_iff; reflexivity.
  - exact small_state_well_shaped.
  - exact small_state_population_nonneg.
  - exact small_state_within_ceiling.
Defined.

(** In one step a cell never loses more forage than its sustainable
    harvest, and never more than the animals on it demand. *)
Theorem grazing_is_limited (s : Simulation) (i j : Z) :
  0 <= digestibility_factor (config s) ->
  0 <= utilization_factor (config s) ->
  0 <= annual_intake_tonnes (config s) ->
  0 <= annual_growth_factor (config s) ->
  0 <= item (biomass s) i j <= item (max_biomass s) i j ->
  0 <= item (population s) i j ->
  item (biomass s) i j
  - item (biomass s) i j * digestibility_factor (config s)
    * utilization_factor (config s)
  <= item (biomass (fst (step s))) i j
  /\ item (biomass s) i j
     - item (population s) i j * annual_intake_tonnes (config s)
     <= item (biomass (fst (step s))) i j.
Proof.
  intros Hd Hu Hi Hg [Hb0 Hb1] Hp.
  rewrite step_biomass, updated_biomass_item.
  destruct (consumed_bounds s i j Hd Hu Hi Hb0 Hp) as [Hc0 Hc1].
  assert (item (consumed s) i j
          <= item (population s) i j * annual_intake_tonnes (config s)) as Hc2.
  { rewrite consumed_item.
    destruct (py_min_cases
                (item (biomass s) i j * digestibility_factor (config s)
                 * utilization_factor (config s))
                (item (population s) i j * annual_intake_tonnes (config s)))
      as [[C E] | [C E]]; rewrite E; lra. }
  unfold np_clip_lo.
  set (v := item (biomass s) i j
            + (item (max_biomass s) i j - item (biomass s) i j)
              * annual_growth_factor (config s) - item (consumed s) i j).
  assert (v <= py_max v 0) as Hv.
  { destruct (py_max_cases v 0) as [[C E] | [C E]]; rewrite E; lra. }
  assert (0 <= (item (max_biomass s) i j - item (biomass s) i j)
               * annual_growth_factor (config s)) as Hr by nra.
  pose proof (Qeq_refl v) as Hveq. unfold v at 2 in Hveq.
  split; lra.
Qed.

Lemma grazing_is_limited_witness :
  item (biomass small_state) 1 1
  - item (biomass small_state) 1 1 * digestibility_factor (config small_state)
    * utilization_factor (config small_state)
  <= item (biomass (fst (step small_state))) 1 1
  /\ item (biomass small_state) 1 1
     - item (population small_state) 1 1
       * annual_intake_tonnes (config small_state)
     <= item (biomass (fst (step small_state))) 1 1.
Proof.
  apply grazing_is_limited;
    try (split; apply Qle_bool_iff; reflexivity);
    apply Qle_bool_iff; reflexivity.
Defined.

Lemma Qdiv_same (a d : Q) : 0 < d -> a == d -> a / d == 1.
Proof. intros Hd E. rewrite E. field. lra. Qed.

Lemma food_satisfaction_item (s : Simulation) (i j : Z) :
  item (food_satisfaction s) i j
  = food_satisfaction_cell
      (py_min (item (sustainable_harvest s) i j) (item (food_demand s) i j))
      (item (food_demand s) i j).
Proof. reflexivity. Qed.

(** Food satisfaction is the share of the demand that the sustainable
    harvest covers: 1 where nothing is demanded or the harvest covers the
    demand, [harvest / demand] where it does not, and always in [[0, 1]]. *)
Theorem food_satisfaction_is_supply_ratio (s : Simulation) (i j : Z) :
  0 <= item (sustainable_harvest s) i j ->
  0 <= item (food_satisfaction s) i j <= 1
  /\ (item (food_demand s) i j <= 0 -> item (food_satisfaction s) i j = 1)
  /\ (0 < item (food_demand s) i j ->
      item (food_demand s) i j <= item (sustainable_harvest s) i j ->
      item (food_satisfaction s) i j == 1)
  /\ (item (sustainable_harvest s) i j < item (food_demand s) i j ->
      item (food_satisfaction s) i j
      == item (sustainable_harvest s) i j / item (food_demand s) i j).
Proof.
  intro Hh. rewrite food_satisfaction_item.
  set (h := item (sustainable_harvest s) i j) in *.
  set (d := item (food_demand s) i j).
  unfold food_satisfaction_cell.
  split; [| split; [| split]].
  - destruct (Qlt_bool 0 d); [apply np_clip_bounds |]; lra.
  - intro Hd. apply Qlt_bool_false in Hd. rewrite Hd. reflexivity.
  - intros Hd Hcover. pose proof Hd as Hb. apply Qlt_bool_true in Hb. rewrite Hb.
    assert (py_min h d / d == 1) as E.
    { destruct (py_min_cases h d) as [[C F] | [C F]]; rewrite F;
        apply Qdiv_same; lra. }
    apply Qle_antisym.
    + apply np_clip_bounds. lra.
    + apply np_clip_ge; lra.
  - intro Hshort.
    assert (0 < d) as Hd by lra.
    pose proof Hd as Hb. apply Qlt_bool_true in Hb. rewrite Hb.
    assert (py_min h d = h) as E.
    { destruct (py_min_cases h d) as [[C F] | [C F]]; [lra | exact F]. }
    rewrite E.
    assert (0 <= h / d) as R0 by (apply Qle_shift_div_l; lra).
    assert (h / d <= 1) as R1 by (apply Qle_shift_div_r; lra).
    rewrite np_clip_id by lra. reflexivity.
Qed.

Lemma food_satisfaction_is_supply_ratio_witness :
  0 <= item (food_satisfaction small_state) 1 1 <= 1
  /\ (0 < item (food_demand small_state) 1 1 ->
      item (food_demand small_state) 1 1
      <= item (sustainable_harvest small_state) 1 1 ->
      item (food_satisfaction small_state) 1 1 == 1).
Proof.
  destruct (food_satisfaction_is_supply_ratio small_state 1 1) as (A & _ & B & _).
  - apply Qle_bool_iff. reflexivity.
  - split; [exact A | exact B].
Defined.

(* ------------------------------------------------------------------ *)
(** ** An empty landscape *)

Lemma count_n_all_zero (n : nat) (f : Z -> Z) :
  (forall i, (0 <= i < Z.of_nat n)%Z -> f i = 0%Z) -> count_n n f = 0%Z.
Proof.
  induction n as [| k IH]; intro E; cbn [count_n].
  - reflexivity.
  - rewrite IH, (E (Z.of_nat k)); [reflexivity | lia |].
    intros i Hi. apply E. lia.
Qed.

Lemma np_count_none (p : Q -> bool) (a : ndarray) :
  (forall i j, in_shape a i j = true -> p (item a i j) = false) ->
  np_count p a = 0%Z.
Proof.
  intro E. unfold np_count, count2, sumZ2, sumZ_to.
  apply count_n_all_zero. intros i Hi. apply count_n_all_zero. intros j Hj.
  rewrite E; [reflexivity |]. apply in_shape_true. lia.
Qed.

Lemma step_keeps_extinct (s : Simulation) :
  all_zero (population s) -> all_zero (population (fst (step s))).
Proof.
  intros Hz i j Hin.
  destruct (step_shape s) as [Hr Hc].
  assert (in_shape (population s) i j = true) as Hin0.
  { apply in_shape_true. apply in_shape_true in Hin. rewrite <- Hr, <- Hc.
    exact Hin. }
  rewrite step_population. unfold _update_population, amap3. cbn [item].
  apply new_pop_cell_zero.
  rewrite (migrate_skipped (with_biomass s (updated_biomass s))).
  - apply Hz. exact Hin0.
  - cbn [population with_biomass]. rewrite (np_sum_zero _ Hz). reflexivity.
Qed.

Lemma steps_keep_extinct (n : nat) (s : Simulation) :
  all_zero (population s) -> all_zero (population (steps n s)).
Proof.
  revert s. induction n as [| k IH]; intros s Hz; cbn [steps].
  - exact Hz.
  - apply IH. apply step_keeps_extinct. exact Hz.
Qed.

(** Extinction is final: once every population cell is 0, every later
    snapshot reports a total of 0 and no occupied cell. *)
Theorem extinct_stays_extinct (n : nat) (s : Simulation) :
  all_zero (population s) ->
  all_zero (snap_population (_get_state (steps n s)))
  /\ snap_total_population (_get_state (steps n s)) == 0
  /\ snap_occupied_cells (_get_state (steps n s)) = 0%Z.
Proof.
  intro Hz. pose proof (steps_keep_extinct n s Hz) as Hn.
  unfold _get_state.
  cbn [snap_population snap_total_population snap_occupied_cells].
  split; [exact Hn | split].
  - apply np_sum_zero. exact Hn.
  - apply np_count_none. intros i j Hin. apply Qlt_bool_false.
    rewrite (Hn i j Hin). apply Qle_bool_iff. reflexivity.
Qed.

Lemma extinct_state_is_empty : all_zero (population extinct_state).
Proof. intros i j _. reflexivity. Qed.

Lemma extinct_stays_extinct_witness :
  all_zero (snap_population (_get_state (steps 4 extinct_state)))
  /\ snap_total_population (_get_state (steps 4 extinct_state)) == 0
  /\ snap_occupied_cells (_get_state (steps 4 extinct_state)) = 0%Z.
Proof.
  apply extinct_stays_extinct. exact extinct_state_is_empty.
Defined.

Lemma ungrazed_step (s : Simulation) (i j : Z) :
  0 <= digestibility_factor (config s) ->
  0 <= utilization_factor (config s) ->
  0 <= annual_growth_factor (config s) ->
  item (population s) i j == 0 ->
  0 <= item (biomass s) i j <= item (max_biomass s) i j ->
  item (biomass (fst (step s))) i j
  == item (biomass s) i j
     + (item (max_biomass s) i j - item (biomass s) i j)
       * annual_growth_factor (config s).
Proof.
  intros Hd Hu Hg Hp [Hb0 Hb1].
  rewrite step_biomass, updated_biomass_item.
  assert (item (consumed s) i j == 0) as Hc.
  { rewrite consumed_item.
    assert (0 <= item (biomass s) i j * digestibility_factor (config s)
                 * utilization_factor (config s)) as Hh
        by (apply Qmult_le_0_compat; [apply Qmult_le_0_compat |]; assumption).
    assert (item (population s) i j * annual_intake_tonnes (config s) == 0)
      as Hdem by (rewrite Hp; ring).
    destruct (py_min_cases
                (item (biomass s) i j * digestibility_factor (config s)
                 * utilization_factor (config s))
                (item (population s) i j * annual_intake_tonnes (config s)))
      as [[C E] | [C E]]; rewrite E; lra. }
  unfold np_clip_lo.
  set (v := item (biomass s) i j
            + (item (max_biomass s) i j - item (biomass s) i j)
              * annual_growth_factor (config s) - item (consumed s) i j).
  pose proof (Qeq_refl v) as Hveq. unfold v at 2 in Hveq.
  assert (0 <= (item (max_biomass s) i j - item (biomass s) i j)
               * annual_growth_factor (config s)) as Hr by nra.
  destruct (py_max_cases v 0) as [[C E] | [C E]]; rewrite E; lra.
Qed.

(** Ungrazed forage recovers geometrically: with no animals anywhere, the
    gap between a cell's biomass and its ceiling shrinks by the factor
    [1 - annual_growth_factor] in every step. *)
Theorem ungrazed_forage_recovers (n : nat) (s : Simulation) (i j : Z) :
  0 <= digestibility_factor (config s) ->
  0 <= utilization_factor (config s) ->
  0 <= annual_growth_factor (config s) <= 1 ->
  well_shaped s ->
  all_zero (population s) ->
  in_shape (biomass s) i j = true ->
  0 <= item (biomass s) i j <= item (max_biomass s) i j ->
  item (max_biomass s) i j - item (biomass (steps n s)) i j
  == pow_n (1 - annual_growth_factor (config s)) n
     * (item (max_biomass s) i j - item (biomass s) i j).
Proof.
  revert s. induction n as [| k IH]; intros s Hd Hu [Hg0 Hg1] Hshape Hz Hin Hb;
    cbn [steps pow_n].
  - ring.
  - destruct Hshape as (A & B & C & D).
    assert (item (population s) i j == 0) as Hp.
    { apply Hz. apply in_shape_true. apply in_shape_true in Hin.
      rewrite C, D. exact Hin. }
    pose proof (ungrazed_step s i j Hd Hu Hg0 Hp Hb) as Hstep.
    destruct Hb as [Hb0 Hb1].
    assert (0 <= (item (max_biomass s) i j - item (biomass s) i j)
                 * annual_growth_factor (config s)) as Hr0 by nra.
    assert ((item (max_biomass s) i j - item (biomass s) i j)
            * annual_growth_factor (config s)
            <= item (max_biomass s) i j - item (biomass s) i j) as Hr1 by nra.
    rewrite (IH (fst (step s))).
    + change (config (fst (step s))) with (config s).
      rewrite step_max_biomass, Hstep. ring.
    + exact Hd.
    + exact Hu.
    + split; assumption.
    + apply step_keeps_well_shaped. repeat split; assumption.
    + apply step_keeps_extinct. exact Hz.
    + exact Hin.
    + rewrite step_max_biomass, Hstep. split; lra.
Qed.

Lemma ungrazed_forage_recovers_witness :
  item (max_biomass extinct_state) 1 1 - item (biomass (steps 2 extinct_state)) 1 1
  == pow_n (1 - annual_growth_factor (config extinct_state)) 2
     * (item (max_biomass extinct_state) 1 1 - item (biomass extinct_state) 1 1).
Proof.
  apply ungrazed_forage_recovers.
  - apply Qle_bool_iff. reflexivity.
  - apply Qle_bool_iff. reflexivity.
  - split; apply Qle_bool_iff; reflexivity.
  - repeat split.
  - exact extinct_state_is_empty.
  - reflexivity.
  - split; apply Qle_bool_iff; reflexivity.
Defined.

(* ------------------------------------------------------------------ *)
(** ** Directional bias *)

Lemma np_clip_nonpos (x hi : Q) : x <= 0 -> 0 <= hi -> np_clip x 0 hi == 0.
Proof.
  intros Hx Hhi. unfold np_clip.
  destruct (py_max_cases x 0) as [[C E] | [C E]]; rewrite E.
  - destruct (py_min_cases 0 hi) as [[C' E'] | [C' E']]; rewrite E'; lra.
  - destruct (py_min_cases x hi) as [[C' E'] | [C' E']]; rewrite E'; lra.
Qed.

Lemma opposite_clips (x : Q) :
  0 <= np_clip (- x) 0 0.2 <= 0.2
  /\ 0 <= np_clip x 0 0.2 <= 0.2
  /\ (np_clip (- x) 0 0.2 == 0 \/ np_clip x 0 0.2 == 0).
Proof.
  split; [apply np_clip_bounds; lra |].
  split; [apply np_clip_bounds; lra |].
  destruct (Qlt_le_dec x 0) as [Hneg | Hpos].
  - right. apply np_clip_nonpos; lra.
  - left. apply np_clip_nonpos; lra.
Qed.

Lemma biased_item (cfg : SimulationConfig) (diffused cc : ndarray) (i j : Z) :
  item (biased cfg diffused cc) i j
  = stay_weight cfg cc i j * item diffused i j
    + up_weight cfg cc i j * item (roll_axis0 diffused (-1)) i j
    + down_weight cfg cc i j * item (roll_axis0 diffused 1) i j
    + left_weight cfg cc i j * item (roll_axis1 diffused (-1)) i j
    + right_weight cfg cc i j * item (roll_axis1 diffused 1) i j.
Proof. reflexivity. Qed.

Lemma weights_bounds (cfg : SimulationConfig) (cc : ndarray) (i j : Z) :
  0 <= up_weight cfg cc i j <= 0.2
  /\ 0 <= down_weight cfg cc i j <= 0.2
  /\ 0 <= left_weight cfg cc i j <= 0.2
  /\ 0 <= right_weight cfg cc i j <= 0.2
  /\ (up_weight cfg cc i j == 0 \/ down_weight cfg cc i j == 0)
  /\ (left_weight cfg cc i j == 0 \/ right_weight cfg cc i j == 0).
Proof.
  unfold up_weight, down_weight, left_weight, right_weight.
  set (b := migration_bias cfg).
  pose proof (opposite_clips (item (diff_axis0 cc) i j * b)) as (U & D & UD).
  pose proof (opposite_clips (item (diff_axis1 cc) i j * b)) as (L & R & LR).
  assert (forall g, - g * b == - (g * b)) as Hopp by (intro g; ring).
  assert (forall x, np_clip x 0 0.2 == 0 -> x <= 0) as Hz.
  { intros x E. destruct (Qlt_le_dec 0 x) as [P | N]; [| exact N].
    exfalso.
    assert (0 < np_clip x 0 0.2) as Hpos.
    { unfold np_clip.
      destruct (py_max_cases x 0) as [[C F] | [C F]]; rewrite F; [lra |].
      destruct (py_min_cases x 0.2) as [[C' F'] | [C' F']]; rewrite F'; lra. }
    lra. }
  repeat split; try (apply np_clip_bounds; lra).
  - destruct UD as [E | E]; [left | right; exact E].
    apply np_clip_nonpos; [| lra]. apply Hz in E. rewrite Hopp. exact E.
  - destruct LR as [E | E]; [left | right; exact E].
    apply np_clip_nonpos; [| lra]. apply Hz in E. rewrite Hopp. exact E.
Qed.

(** Each of the four directional weights lies in [[0, 0.2]], two opposite
    directions are never both taken, and so at least 60% of a cell's
    diffused mass stays: the blended field is this combination of the
    diffused field and its four shifted copies. *)
Theorem directional_bias_is_bounded (cfg : SimulationConfig)
    (diffused cc : ndarray) (i j : Z) :
  item (biased cfg diffused cc) i j
  = stay_weight cfg cc i j * item diffused i j
    + up_weight cfg cc i j * item (roll_axis0 diffused (-1)) i j
    + down_weight cfg cc i j * item (roll_axis0 diffused 1) i j
    + left_weight cfg cc i j * item (roll_axis1 diffused (-1)) i j
    + right_weight cfg cc i j * item (roll_axis1 diffused 1) i j
  /\ 0 <= up_weight cfg cc i j <= 0.2
  /\ 0 <= down_weight cfg cc i j <= 0.2
  /\ 0 <= left_weight cfg cc i j <= 0.2
  /\ 0 <= right_weight cfg cc i j <= 0.2
  /\ up_weight cfg cc i j * down_weight cfg cc i j == 0
  /\ left_weight cfg cc i j * right_weight cfg cc i j == 0
  /\ 0.6 <= stay_weight cfg cc i j <= 1.
Proof.
  pose proof (weights_bounds cfg cc i j) as (U & D & L & R & UD & LR).
  split; [apply biased_item |].
  repeat (split; [assumption |]).
  split; [destruct UD as [E | E]; rewrite E; ring |].
  split; [destruct LR as [E | E]; rewrite E; ring |].
  unfold stay_weight.
  destruct UD as [E1 | E1]; destruct LR as [E2 | E2]; split; lra.
Qed.

Lemma diff_axis0_flat (cc : ndarray) (c : Q) (i j : Z) :
  (forall u v, in_shape cc u v = true -> item cc u v == c) ->
  in_shape cc i j = true ->
  item (diff_axis0 cc) i j == 0.
Proof.
  intros Hflat Hin. unfold diff_axis0. cbn [item].
  destruct (Z.eqb_spec i 0) as [E | Ne]; [ring |].
  apply in_shape_true in Hin.
  rewrite (Hflat i j), (Hflat (i - 1)%Z j); [ring | |];
    apply in_shape_true; lia.
Qed.

Lemma diff_axis1_flat (cc : ndarray) (c : Q) (i j : Z) :
  (forall u v, in_shape cc u v = true -> item cc u v == c) ->
  in_shape cc i j = true ->
  item (diff_axis1 cc) i j == 0.
Proof.
  intros Hflat Hin. unfold diff_axis1. cbn [item].
  destruct (Z.eqb_spec j 0) as [E | Ne]; [ring |].
  apply in_shape_true in Hin.
  rewrite (Hflat i j), (Hflat i (j - 1)%Z); [ring | |];
    apply in_shape_true; lia.
Qed.

Lemma clip_of_flat (g b : Q) :
  g == 0 -> np_clip (- g * b) 0 0.2 == 0 /\ np_clip (g * b) 0 0.2 == 0.
Proof.
  intro E. split; apply np_clip_of_zero; try lra; rewrite E; ring.
Qed.

(** On a flat carrying-capacity field there is no directional bias: the
    masked field is the masked diffused field, cell by cell. *)
Theorem flat_capacity_means_pure_diffusion (s : Simulation) (cc : ndarray)
    (c : Q) (i j : Z) :
  (forall u v, in_shape cc u v = true -> item cc u v == c) ->
  in_shape cc i j = true ->
  item (migrate_masked s cc) i j
  == item (mask_water_and_edges
             (fftconvolve_same (population s) (_migration_kernel s))
             (max_biomass s)) i j.
Proof.
  intros Hflat Hin.
  unfold migrate_masked, mask_water_and_edges, mask_edges, mask_water.
  cbv zeta. cbn [item nrows ncols biased fftconvolve_same].
  destruct (on_border _ _ i j); [reflexivity |].
  destruct (Qle_bool (item (max_biomass s) i j) 0); [reflexivity |].
  change (item (biased (config s)
                  (fftconvolve_same (population s) (_migration_kernel s)) cc) i j
          == item (fftconvolve_same (population s) (_migration_kernel s)) i j).
  rewrite biased_item.
  unfold stay_weight, up_weight, down_weight, left_weight, right_weight.
  destruct (clip_of_flat _ (migration_bias (config s))
              (diff_axis0_flat cc c i j Hflat Hin)) as [U D].
  destruct (clip_of_flat _ (migration_bias (config s))
              (diff_axis1_flat cc c i j Hflat Hin)) as [L R].
  rewrite U, D, L, R. ring.
Qed.

Lemma flat_capacity_means_pure_diffusion_witness :
  item (migrate_masked small_state uniform_land) 1 1
  == item (mask_water_and_edges
             (fftconvolve_same (population small_state)
                               (_migration_kernel small_state))
             (max_biomass small_state)) 1 1.
Proof.
  apply (flat_capacity_means_pure_diffusion small_state uniform_land 10 1 1).
  - intros u v _. reflexivity.
  - reflexivity.
Defined.

(* ------------------------------------------------------------------ *)
(** ** Sign and size of the migrated field *)

Lemma sum_n_le (n : nat) (f g : Z -> Q) :
  (forall i, (0 <= i < Z.of_nat n)%Z -> f i <= g i) -> sum_n n f <= sum_n n g.
Proof.
  induction n as [| k IH]; intro E; cbn [sum_n].
  - apply Qle_refl.
  - assert (sum_n k f <= sum_n k g) by (apply IH; intros i Hi; apply E; lia).
    assert (f (Z.of_nat k) <= g (Z.of_nat k)) by (apply E; lia).
    lra.
Qed.

Lemma np_sum_le (a b : ndarray) :
  nrows a = nrows b -> ncols a = ncols b ->
  (forall i j, in_shape a i j = true -> item a i j <= item b i j) ->
  np_sum a <= np_sum b.
Proof.
  intros Hr Hc E. unfold np_sum, sum_to. rewrite <- Hr, <- Hc.
  apply sum_n_le. intros i Hi. apply sum_n_le. intros j Hj.
  apply E. apply in_shape_true. lia.
Qed.

Lemma padded_nonneg (p : ndarray) (i j : Z) :
  nonneg_array p -> 0 <= padded p i j.
Proof.
  intro Hp. unfold padded. destruct (in_shape p i j) eqn:E.
  - apply Hp. exact E.
  - apply Qle_refl.
Qed.

Lemma diffused_nonneg (p k : ndarray) (i j : Z) :
  nonneg_array p -> nonneg_array k -> 0 <= item (fftconvolve_same p k) i j.
Proof.
  intros Hp Hk. unfold fftconvolve_same. cbv zeta. cbn [item].
  apply sum_to_nonneg. intros u Hu. apply sum_to_nonneg. intros v Hv.
  apply Qmult_le_0_compat.
  - apply Hk. apply in_shape_true. split; assumption.
  - apply padded_nonneg. exact Hp.
Qed.

Lemma masked_nonneg (s : Simulation) (cc : ndarray) (i j : Z) :
  nonneg_array (population s) ->
  nonneg_array (_migration_kernel s) ->
  0 <= item (migrate_masked s cc) i j.
Proof.
  intros Hp Hk.
  unfold migrate_masked, mask_water_and_edges, mask_edges, mask_water.
  cbv zeta. cbn [item nrows ncols biased fftconvolve_same].
  destruct (on_border _ _ i j); [apply Qle_refl |].
  destruct (Qle_bool (item (max_biomass s) i j) 0); [apply Qle_refl |].
  change (0 <= item (biased (config s)
                       (fftconvolve_same (population s) (_migration_kernel s))
                       cc) i j).
  rewrite biased_item.
  pose proof (weights_bounds (config s) cc i j) as (U & D & L & R & UD & LR).
  assert (0.6 <= stay_weight (config s) cc i j) as St
      by (unfold stay_weight; destruct UD as [E1 | E1];
          destruct LR as [E2 | E2]; lra).
  set (d := fftconvolve_same (population s) (_migration_kernel s)).
  assert (forall u v, 0 <= item d u v) as Hd
      by (intros u v; apply diffused_nonneg; assumption).
  pose proof (Hd i j) as D0.
  assert (0 <= item (roll_axis0 d (-1)) i j) as D1 by (cbn [roll_axis0 item]; apply Hd).
  assert (0 <= item (roll_axis0 d 1) i j) as D2 by (cbn [roll_axis0 item]; apply Hd).
  assert (0 <= item (roll_axis1 d (-1)) i j) as D3 by (cbn [roll_axis1 item]; apply Hd).
  assert (0 <= item (roll_axis1 d 1) i j) as D4 by (cbn [roll_axis1 item]; apply Hd).
  nra.
Qed.

Lemma migrate_nonneg (s : Simulation) (cc : ndarray) :
  nonneg_array (population s) ->
  nonneg_array (_migration_kernel s) ->
  nonneg_array (_migrate s cc).
Proof.
  intros Hp Hk i j Hin.
  destruct (migrate_shape s cc) as [Hr Hc].
  unfold _migrate in *. cbv zeta in *.
  destruct (Qlt_bool (np_sum (population s)) 0.1) eqn:Hskip.
  - apply Hp. exact Hin.
  - apply Qlt_bool_false in Hskip.
    pose proof (masked_nonneg s cc i j Hp Hk) as Hm.
    destruct (Qlt_bool 0 (np_sum (migrate_masked s cc))) eqn:Hafter.
    + apply Qlt_bool_true in Hafter. unfold amap. cbn [item].
      apply Qmult_le_0_compat; [exact Hm |].
      apply Qle_shift_div_l; lra.
    + exact Hm.
Qed.


Lemma flat_kernel_nonneg : nonneg_array flat_kernel.
Proof.
  intros u v _. cbn. destruct ((u =? 2)%Z && (v =? 2)%Z); lra.
Qed.


Lemma migrate_sum_le (s : Simulation) (cc : ndarray) :
  0 <= np_sum (population s) ->
  np_sum (_migrate s cc) <= np_sum (population s).
Proof.
  intro Hsum. unfold _migrate. cbv zeta.
  destruct (Qlt_bool (np_sum (population s)) 0.1) eqn:Hskip; [apply Qle_refl |].
  destruct (Qlt_bool 0 (np_sum (migrate_masked s cc))) eqn:Hafter.
  - apply Qlt_bool_true in Hafter. rewrite np_sum_scale.
    rewrite Qmul_div_cancel by exact Hafter. apply Qle_refl.
  - apply Qlt_bool_false in Hafter. lra.
Qed.

Lemma new_pop_cell_upper (cfg : SimulationConfig) (pop cc fs : Q) :
  0 <= pop -> new_pop_cell cfg pop cc fs <= pop * 1.15.
Proof.
  intro Hpop. unfold new_pop_cell. cbv zeta.
  pose proof (growth_is_clipped cfg pop cc fs) as [Glo Ghi].
  set (g := np_clip (growth_factor_preclip cfg pop cc fs) (-0.3) 0.15) in *.
  apply Qle_trans with (pop * (1 + g)).
  - apply np_clip_le_self. nra.
  - nra.
Qed.

(** The herd cannot grow by more than 15% in a year: from a non-negative
    population and a non-negative kernel, the total after a full step is at
    most 1.15 times the total before. *)
Theorem yearly_growth_is_capped (s : Simulation) :
  nonneg_array (population s) ->
  nonneg_array (_migration_kernel s) ->
  np_sum (population (fst (step s))) <= 1.15 * np_sum (population s).
Proof.
  intros Hp Hk.
  set (s1 := with_biomass s (updated_biomass s)).
  set (m := _migrate s1 (carrying_capacity s)).
  assert (nonneg_array m) as Hm by (apply (migrate_nonneg s1); assumption).
  assert (np_sum m <= np_sum (population s)) as Hsum.
  { apply (migrate_sum_le s1). apply np_sum_nonneg. exact Hp. }
  apply Qle_trans with (np_sum (amap (fun x => x * 1.15) m)).
  - rewrite step_population. fold s1. fold m.
    apply np_sum_le; [reflexivity | reflexivity |].
    intros i j Hin. unfold _update_population, amap3, amap. cbn [item].
    apply new_pop_cell_upper. apply Hm. exact Hin.
  - rewrite np_sum_scale. lra.
Qed.

Lemma yearly_growth_is_capped_witness :
  np_sum (population (fst (step small_state)))
  <= 1.15 * np_sum (population small_state).
Proof.
  apply yearly_growth_is_capped.
  - exact small_state_population_nonneg.
  - exact flat_kernel_nonneg.
Defined.

(* ------------------------------------------------------------------ *)
(** ** Grids that are all border *)

Lemma thin_grid_is_border (h w i j : Z) :
  (h <= 2 \/ w <= 2)%Z ->
  (0 <= i < h)%Z -> (0 <= j < w)%Z ->
  on_border h w i j = true.
Proof.
  intros Hthin Hi Hj. unfold on_border.
  destruct (Z.eqb_spec i 0), (Z.eqb_spec i (h - 1)),
           (Z.eqb_spec j 0), (Z.eqb_spec j (w - 1)); cbn; try reflexivity; lia.
Qed.

(** On a grid with at most two rows or at most two columns every cell is
    on the outer ring, so a step that migrates (total >= 0.1) masks
    everything: nothing is left to rescale and the whole population is
    lost. *)
Theorem thin_grid_loses_population (s : Simulation) :
  (nrows (population s) <= 2 \/ ncols (population s) <= 2)%Z ->
  0.1 <= np_sum (population s) ->
  all_zero (_migrate s (carrying_capacity s))
  /\ all_zero (population (fst (step s)))
  /\ snap_total_population (snd (step s)) == 0.
Proof.
  intros Hthin Hsum.
  assert (forall s' cc,
            population s' = population s ->
            all_zero (_migrate s' cc)) as Hmig.
  { intros s' cc Hpop i j Hin.
    destruct (migrate_shape s' cc) as [Hr Hc].
    apply in_shape_true in Hin. rewrite Hr, Hc, Hpop in Hin.
    apply migrate_masked_cell; [rewrite Hpop; exact Hsum |].
    apply masked_on_border. rewrite Hpop.
    apply thin_grid_is_border; [exact Hthin | tauto | tauto]. }
  assert (all_zero (population (fst (step s)))) as Hstep.
  { intros i j Hin. rewrite step_population in *.
    unfold _update_population, amap3 in *. cbn [item nrows ncols in_shape] in *.
    apply new_pop_cell_zero.
    apply (Hmig (with_biomass s (updated_biomass s)) (carrying_capacity s) eq_refl).
    exact Hin. }
  split; [apply Hmig; reflexivity | split; [exact Hstep |]].
  rewrite step_snapshot. unfold _get_state. cbn [snap_total_population].
  apply np_sum_zero. exact Hstep.
Qed.

Lemma thin_grid_loses_population_witness :
  all_zero (_migrate strip_state (carrying_capacity strip_state))
  /\ all_zero (population (fst (step strip_state)))
  /\ snap_total_population (snd (step strip_state)) == 0.
Proof.
  apply thin_grid_loses_population.
  - left. cbn. lia.
  - apply Qle_bool_iff. vm_compute. reflexivity.
Defined.

(* ------------------------------------------------------------------ *)
(** ** Seeding, further *)

Lemma release_radius_range `{NumPy} (avg_cc : Q) (total_pop : Z) :
  (30 <= release_radius_of avg_cc total_pop <= 300)%Z.
Proof. unfold release_radius_of. cbv zeta. lia. Qed.

Lemma sumZ2_no_columns (h : Z) (f : Z -> Z -> Z) : sumZ2 h 0 f = 0%Z.
Proof.
  unfold sumZ2, sumZ_to. apply count_n_all_zero. intros i _. reflexivity.
Qed.

Lemma initial_population_nonneg `{NumPy} (bio : ndarray)
    (radius center_row center_col total_population i j : Z) :
  poisson_nonneg ->
  (0 <= total_population)%Z ->
  0 <= item (_initialize_population bio radius center_row center_col
                                    total_population) i j.
Proof.
  intros Hp Htp. unfold _initialize_population. cbv zeta.
  set (win := seed_window (nrows bio) (ncols bio) center_row center_col radius).
  set (A := seed_actual bio win center_row center_col radius total_population).
  assert (forall a b, (0 <= A a b)%Z) as HA
      by (intros a b; apply seed_actual_nonneg; exact Hp).
  destruct (count2 _ _ _ =? 0)%Z; [apply Qle_refl |]. cbn [item].
  destruct (in_range _ _ && in_range _ _); [| apply Qle_refl].
  pose proof (HA (i - r_lo win)%Z (j - c_lo win)%Z) as Ha.
  destruct (Z.ltb_spec 0 (sumZ2 (n_rows win) (n_cols win) A)) as [Hpos | Hnot].
  - apply Qle_shift_div_l.
    + change 0 with (inject_Z 0). rewrite <- Zlt_Qlt. exact Hpos.
    + rewrite Qmult_0_l. change 0 with (inject_Z 0). rewrite <- Zle_Qle.
      apply Z.mul_nonneg_nonneg; assumption.
  - change 0 with (inject_Z 0). rewrite <- Zle_Qle. exact Ha.
Qed.


Lemma floor_numpy_poisson_nonneg : @poisson_nonneg floor_numpy.
Proof. intros expected i j. cbn [rng_poisson floor_numpy]. lia. Qed.




(** A release point more than 300 cells outside the grid is not rejected:
    for a head count that is not negative and a positive cell size, the
    seeding window is empty and the simulation starts with no animals, a
    snapshot of total 0 and no occupied cell. *)
Theorem far_start_seeds_nothing `{NumPy} (cfg : SimulationConfig) (bio : ndarray)
    (cell_size : Q) (row col total_population : Z) :
  0 < cell_size ->
  (0 <= total_population)%Z ->
  (row + 300 < 0 \/ nrows bio + 300 <= row
   \/ col + 300 < 0 \/ ncols bio + 300 <= col)%Z ->
  let snap := snd (initialize cfg bio cell_size row col total_population) in
  all_zero (snap_population snap)
  /\ snap_total_population snap == 0
  /\ snap_occupied_cells snap = 0%Z.
Proof.
  intros _ _ Hfar snap.
  assert (forall i j, item (snap_population snap) i j == 0) as Hz.
  { intros i j. unfold snap, initialize. cbv zeta.
    cbn [snd _get_state snap_population population].
    unfold _calculate_release_radius.
    pose proof (release_radius_range (local_avg_cc cfg bio row col)
                  total_population) as Hrad.
    set (radius := release_radius_of (local_avg_cc cfg bio row col)
                                     total_population) in *.
    unfold _initialize_population. cbv zeta.
    set (win := seed_window (nrows bio) (ncols bio) row col radius).
    assert (n_rows win = 0 \/ n_cols win = 0)%Z as Hempty
        by (unfold win, seed_window; cbn [n_rows n_cols]; lia).
    assert (count2 (n_rows win) (n_cols win)
              (valid_mask bio win row col radius) = 0%Z) as Hcount.
    { unfold count2. destruct Hempty as [E | E]; rewrite E.
      - reflexivity.
      - apply sumZ2_no_columns. }
    rewrite Hcount. reflexivity. }
  split; [intros i j _; apply Hz | split].
  - apply np_sum_zero. intros i j _. apply Hz.
  - unfold snap. unfold initialize. cbv zeta. cbn [snd _get_state snap_occupied_cells].
    apply np_count_none. intros i j _. apply Qlt_bool_false.
    pose proof (Hz i j) as E. unfold snap, initialize in E. cbv zeta in E.
    cbn [snd _get_state snap_population] in E. rewrite E.
    apply Qle_bool_iff. reflexivity.
Qed.

Lemma far_start_seeds_nothing_witness :
  let snap := snd (@initialize floor_numpy default_config uniform_land 1 1000 1 100) in
  all_zero (snap_population snap)
  /\ snap_total_population snap == 0
  /\ snap_occupied_cells snap = 0%Z.
Proof.
  apply (@far_start_seeds_nothing floor_numpy);
    [reflexivity | lia | cbn; lia].
Defined.

Lemma py_max_mono (a b a' b' : Q) :
  a <= a' -> b <= b' -> py_max a b <= py_max a' b'.
Proof.
  intros Ha Hb.
  destruct (py_max_cases a b) as [[C E] | [C E]]; rewrite E;
    destruct (py_max_cases a' b') as [[C' E'] | [C' E']]; rewrite E'; lra.
Qed.

Lemma Qdiv_le_mono (a b c : Q) : 0 < c -> a <= b -> a / c <= b / c.
Proof.
  intros Hc Hab. apply Qle_shift_div_l; [exact Hc |].
  assert (a / c * c == a) as E by (field; lra). rewrite E. exact Hab.
Qed.



(** No kernel weight is negative, for a positive cell size and a diffusion
    rate in [[0, 1]]. *)
Theorem kernel_weights_are_nonnegative `{NumPy} (cfg : SimulationConfig)
    (cell_size : Q) :
  sqrt_exact_on_squares ->
  0 < cell_size ->
  0 <= diffusion_rate cfg <= 1 ->
  nonneg_array (_create_migration_kernel cfg cell_size)
  /\ nrows (_create_migration_kernel cfg cell_size)
     = (2 * kernel_radius cfg cell_size + 1)%Z
  /\ ncols (_create_migration_kernel cfg cell_size)
     = (2 * kernel_radius cfg cell_size + 1)%Z.
Proof.
  intros Hsq _ [Hd0 Hd1].
  pose proof (kernel_radius_range cfg cell_size) as Hr.
  set (r := kernel_radius cfg cell_size) in *.
  assert (0 < np_sum (kernel_raw r)) as HS
      by (apply kernel_raw_sum_pos; [exact Hsq | lia]).
  assert (_create_migration_kernel cfg cell_size
          = set_item (amap (fun x => x / np_sum (kernel_raw r) * diffusion_rate cfg)
                           (kernel_raw r))
                     r r (1.0 - diffusion_rate cfg)) as Hk.
  { unfold _create_migration_kernel. cbv zeta. fold r.
    pose proof HS as Hb. apply Qlt_bool_true in Hb. rewrite Hb. reflexivity. }
  rewrite Hk. split; [| split; reflexivity].
  intros u v _. unfold set_item, amap. cbn [item].
  destruct ((u =? r)%Z && (v =? r)%Z); [lra |].
  apply Qmult_le_0_compat; [| exact Hd0].
  apply Qle_shift_div_l; [exact HS |].
  rewrite Qmult_0_l. apply kernel_raw_nonneg.
Qed.

Lemma kernel_weights_are_nonnegative_witness :
  nonneg_array (@_create_migration_kernel floor_numpy default_config 1)
  /\ nrows (@_create_migration_kernel floor_numpy default_config 1)
     = (2 * kernel_radius default_config 1 + 1)%Z
  /\ ncols (@_create_migration_kernel floor_numpy default_config 1)
     = (2 * kernel_radius default_config 1 + 1)%Z.
Proof.
  apply (@kernel_weights_are_nonnegative floor_numpy).
  - exact floor_numpy_sqrt_exact_on_squares.
  - reflexivity.
  - split; apply Qle_bool_iff; reflexivity.
Defined.

(* ------------------------------------------------------------------ *)
(** ** Snapshots and what a step leaves alone *)

Lemma count_n_bounds (n : nat) (f : Z -> Z) (c : Z) :
  (forall i, (0 <= i < Z.of_nat n)%Z -> (0 <= f i <= c)%Z) ->
  (0 <= count_n n f <= Z.of_nat n * c)%Z.
Proof.
  induction n as [| k IH]; intro E; cbn [count_n].
  - lia.
  - assert (0 <= count_n k f <= Z.of_nat k * c)%Z
      by (apply IH; intros i Hi; apply E; lia).
    assert (0 <= f (Z.of_nat k) <= c)%Z by (apply E; lia).
    nia.
Qed.

Lemma occupied_as_sum (a : ndarray) :
  inject_Z (np_count (fun x => Qlt_bool 0.1 x) a)
  == np_sum (amap (fun x => if Qlt_bool 0.1 x then 1 else 0) a).
Proof.
  unfold np_count, count2, sumZ2, np_sum, amap. cbn [nrows ncols item].
  rewrite <- sum_to_inject. apply sum_to_ext. intros i _.
  rewrite <- sum_to_inject. apply sum_to_ext. intros j _.
  destruct (Qlt_bool 0.1 (item a i j)); reflexivity.
Qed.

(** The two summary fields of a snapshot agree with its grid: the number
    of occupied cells is between 0 and the number of cells, and a
    non-negative population totals more than 0.1 per occupied cell. *)
Theorem snapshot_is_consistent (s : Simulation) :
  (0 <= nrows (population s))%Z ->
  (0 <= ncols (population s))%Z ->
  nonneg_array (population s) ->
  (0 <= snap_occupied_cells (_get_state s)
      <= nrows (population s) * ncols (population s))%Z
  /\ 0.1 * inject_Z (snap_occupied_cells (_get_state s))
     <= snap_total_population (_get_state s).
Proof.
  intros Hr Hc Hp. unfold _get_state.
  cbn [snap_occupied_cells snap_total_population].
  split.
  - unfold np_count, count2, sumZ2, sumZ_to.
    pose proof (count_n_bounds (Z.to_nat (nrows (population s)))
                  (fun i => count_n (Z.to_nat (ncols (population s)))
                              (fun j => if Qlt_bool 0.1 (item (population s) i j)
                                        then 1%Z else 0%Z))
                  (ncols (population s))) as Hb.
    rewrite Z2Nat.id in Hb by exact Hr. apply Hb. intros i _.
    pose proof (count_n_bounds (Z.to_nat (ncols (population s)))
                  (fun j => if Qlt_bool 0.1 (item (population s) i j)
                            then 1%Z else 0%Z) 1) as Hb'.
    rewrite Z2Nat.id in Hb' by exact Hc.
    assert (forall j, (0 <= j < ncols (population s))%Z ->
              (0 <= (if Qlt_bool 0.1 (item (population s) i j)
                     then 1 else 0) <= 1)%Z) as Hcell
        by (intros j _; destruct (Qlt_bool _ _); lia).
    specialize (Hb' Hcell). lia.
  - rewrite occupied_as_sum.
    rewrite Qmult_comm, <- np_sum_scale.
    apply np_sum_le; [reflexivity | reflexivity |].
    intros i j Hin. unfold amap in *. cbn [item in_shape nrows ncols] in *.
    pose proof (Hp i j Hin) as H0.
    destruct (Qlt_bool 0.1 (item (population s) i j)) eqn:E.
    + apply Qlt_bool_true in E. lra.
    + lra.
Qed.

Lemma snapshot_is_consistent_witness :
  (0 <= snap_occupied_cells (_get_state small_state)
      <= nrows (population small_state) * ncols (population small_state))%Z
  /\ 0.1 * inject_Z (snap_occupied_cells (_get_state small_state))
     <= snap_total_population (_get_state small_state).
Proof.
  apply snapshot_is_consistent.
  - cbn. lia.
  - cbn. lia.
  - exact small_state_population_nonneg.
Defined.

(** Stepping advances the year by one per step and writes only biomass
    and population: configuration, ceiling, kernel, cell size and release
    radius are those of the start. *)
Theorem steps_leave_the_setup_alone (n : nat) (s : Simulation) :
  year (steps n s) = (year s + Z.of_nat n)%Z
  /\ config (steps n s) = config s
  /\ max_biomass (steps n s) = max_biomass s
  /\ _migration_kernel (steps n s) = _migration_kernel s
  /\ cell_size_km (steps n s) = cell_size_km s
  /\ _release_radius (steps n s) = _release_radius s.
Proof.
  revert s. induction n as [| k IH]; intro s; cbn [steps].
  - repeat split. lia.
  - destruct (IH (fst (step s))) as (A & B & C & D & E & F).
    rewrite A, B, C, D, E, F. repeat split. rewrite step_year. lia.
Qed.

(* ------------------------------------------------------------------ *)
(** ** A whole run on a non-negative grid *)

Lemma steps_max_biomass (n : nat) (s : Simulation) :
  max_biomass (steps n s) = max_biomass s.
Proof.
  revert s. induction n as [| k IH]; intro s; cbn [steps].
  - reflexivity.
  - rewrite IH. apply step_max_biomass.
Qed.

Lemma steps_keep_within_ceiling (n : nat) (s : Simulation) :
  0 <= digestibility_factor (config s) ->
  0 <= utilization_factor (config s) ->
  0 <= annual_intake_tonnes (config s) ->
  0 <= annual_growth_factor (config s) <= 1 ->
  well_shaped s ->
  nonneg_array (population s) ->
  within_ceiling s ->
  within_ceiling (steps n s).
Proof.
  revert s. induction n as [| k IH]; intros s Hd Hu Hi Hg Hshape Hpop Hin;
    cbn [steps].
  - exact Hin.
  - apply IH; try assumption.
    + apply step_keeps_well_shaped. exact Hshape.
    + apply step_population_nonneg.
    + apply step_keeps_within_ceiling; assumption.
Qed.


Lemma uniform_land_nonneg : nonneg_array uniform_land.
Proof. intros i j _. cbn. lra. Qed.


(* ------------------------------------------------------------------ *)
(** ** Raster conversion *)

Lemma py_max_zero_of_nonneg (x : Q) : 0 <= x -> py_max x 0 = x.
Proof.
  intro Hx. unfold py_max. apply Qlt_bool_false in Hx. rewrite Hx. reflexivity.
Qed.

(** What the converter saves is fit for the simulation: no cell is
    negative, a cell holding the no-data value comes out as 0, a cell that
    is neither negative nor the no-data value comes out as it went in, the
    shape is that of the band, and the cell size is not negative. *)
Theorem converted_raster_is_clean (nodata : option Q) (pixel_width_m : Q)
    (band : ndarray) :
  let out := convert_geotiff nodata pixel_width_m band in
  (forall i j, 0 <= item (fst out) i j)
  /\ nrows (fst out) = nrows band
  /\ ncols (fst out) = ncols band
  /\ (forall nd i j, nodata = Some nd -> item band i j == nd ->
        item (fst out) i j = 0)
  /\ (forall i j, 0 <= item band i j ->
        (forall nd, nodata = Some nd -> ~ item band i j == nd) ->
        item (fst out) i j = item band i j)
  /\ snd out == Qabs.Qabs pixel_width_m / 1000
  /\ 0 <= snd out.
Proof.
  unfold convert_geotiff. cbv zeta. cbn [fst snd].
  split; [| split; [| split; [| split; [| split; [| split]]]]].
  - intros i j. unfold amap, np_clip_lo. cbn [item]. apply py_max_lower.
  - destruct nodata; reflexivity.
  - destruct nodata; reflexivity.
  - intros nd i j -> Hnd. unfold handle_nodata, amap, np_clip_lo. cbn [item].
    apply Qeq_bool_iff in Hnd. rewrite Hnd. reflexivity.
  - intros i j Hpos Hnot. unfold handle_nodata, amap, np_clip_lo.
    destruct nodata as [nd |]; cbn [item].
    + destruct (Qeq_bool (item band i j) nd) eqn:E.
      * exfalso. apply (Hnot nd eq_refl). apply Qeq_bool_iff. exact E.
      * apply py_max_zero_of_nonneg. exact Hpos.
    + apply py_max_zero_of_nonneg. exact Hpos.
  - assert (1000.0 == 1000) as E by reflexivity. rewrite E. reflexivity.
  - apply Qle_shift_div_l; [reflexivity |].
    rewrite Qmult_0_l. apply Qabs.Qabs_nonneg.
Qed.
